(** * CLMI: the bounded conversation of the command-line chat client

    A shallow embedding of [src/index.ts] (the agent variant) and of its
    earlier plain-completion variant, which share the content normaliser,
    the token estimator, the token counter handed to the history trimmer
    and the line handler of the REPL.

    Conventions.
    - A JavaScript string is a [string] whose characters are the code
      units below 256; the white space of [\s] and of [trim()] in that
      range is U+0009..U+000D, U+0020 and U+00A0.
    - A JavaScript value that may be [undefined], and a call that may
      throw, is an [option]; [None] is [undefined], respectively the
      exception.
    - Token counts are JavaScript numbers; they are integers here ([Z]),
      as the provider reports them and as array lengths are. *)

From Stdlib Require Import String Ascii List ZArith Lia Bool Arith.
From Stdlib Require Import Numbers.DecimalString.
Import ListNotations.

Local Open Scope string_scope.
Local Open Scope list_scope.

(** ** A small error monad *)

Definition bind {A B : Type} (m : option A) (k : A -> option B) : option B :=
  match m with
  | Some a => k a
  | None => None
  end.

Notation "x <- m ;; k" := (bind m (fun x => k))
  (at level 61, m at next level, right associativity).

(** ** JavaScript strings *)

Module Js.

Definition isWhiteSpace (c : ascii) : bool :=
  let n := nat_of_ascii c in
  (((9 <=? n) && (n <=? 13)) || (n =? 32) || (n =? 160))%nat.

Fixpoint trimStart (s : string) : string :=
  match s with
  | EmptyString => EmptyString
  | String c s' => if isWhiteSpace c then trimStart s' else s
  end.

Fixpoint trimEnd (s : string) : string :=
  match s with
  | EmptyString => EmptyString
  | String c s' =>
      match trimEnd s' with
      | EmptyString => if isWhiteSpace c then EmptyString else String c EmptyString
      | t => String c t
      end
  end.

(** [s.trim()] *)
Definition trim (s : string) : string := trimEnd (trimStart s).

(** Puts [c] in front of the first piece of a split. *)
Definition consPiece (c : ascii) (pieces : list string) : list string :=
  match pieces with
  | p :: ps => String c p :: ps
  | [] => [String c EmptyString]
  end.

(** [s.split(sep)] for a one-character separator: every occurrence of
    the separator ends a piece, empty pieces are kept. *)
Fixpoint split (sep : ascii) (s : string) : list string :=
  match s with
  | EmptyString => [EmptyString]
  | String c s' =>
      if Ascii.eqb c sep then EmptyString :: split sep s'
      else consPiece c (split sep s')
  end.

(** [s.split(/\s+/)]: every maximal run of white space ends a piece;
    a run at either end of the string leaves an empty piece there, and
    the empty string gives one empty piece. *)
Fixpoint splitWs (s : string) : list string :=
  match s with
  | EmptyString => [EmptyString]
  | String c s' =>
      if isWhiteSpace c then
        match s' with
        | String c' _ =>
            if isWhiteSpace c' then splitWs s' else EmptyString :: splitWs s'
        | EmptyString => EmptyString :: splitWs s'
        end
      else consPiece c (splitWs s')
  end.

(** [pieces.join(sep)] *)
Fixpoint join (sep : string) (pieces : list string) : string :=
  match pieces with
  | [] => EmptyString
  | [p] => p
  | p :: ps => (p ++ sep ++ join sep ps)%string
  end.

Definition isEmpty (s : string) : bool :=
  match s with
  | EmptyString => true
  | String _ _ => false
  end.

End Js.

(** ** JavaScript values and [JSON.stringify] *)

#[warnings="-register-all"]
Inductive JsValue : Type :=
| JUndefined
| JNull
| JBool (b : bool)
| JNum (n : Z)
| JStr (s : string)
| JArr (items : list JsValue)
| JObj (props : list (string * JsValue)).

(** [obj[key]]: the first property of that name, [undefined] without one. *)
Fixpoint getProp (key : string) (props : list (string * JsValue)) : JsValue :=
  match props with
  | [] => JUndefined
  | (k, v) :: rest => if String.eqb k key then v else getProp key rest
  end.

Module JSON.

Definition dquote : string := String (ascii_of_nat 34) EmptyString.
Definition backslash : string := String (ascii_of_nat 92) EmptyString.
Definition newline : string := String (ascii_of_nat 10) EmptyString.

Definition hexDigit (n : nat) : string :=
  String (ascii_of_nat (if n <? 10 then 48 + n else 87 + n)%nat) EmptyString.

(** One code unit inside a JSON string literal (QuoteJSONString). *)
Definition quoteChar (c : ascii) : string :=
  let n := nat_of_ascii c in
  if (n =? 8)%nat then (backslash ++ "b")%string
  else if (n =? 9)%nat then (backslash ++ "t")%string
  else if (n =? 10)%nat then (backslash ++ "n")%string
  else if (n =? 12)%nat then (backslash ++ "f")%string
  else if (n =? 13)%nat then (backslash ++ "r")%string
  else if (n =? 34)%nat then (backslash ++ dquote)%string
  else if (n =? 92)%nat then (backslash ++ backslash)%string
  else if (n <? 32)%nat
       then (backslash ++ "u00" ++ hexDigit (n / 16) ++ hexDigit (n mod 16))%string
  else String c EmptyString.

Fixpoint quoteBody (s : string) : string :=
  match s with
  | EmptyString => EmptyString
  | String c s' => (quoteChar c ++ quoteBody s')%string
  end.

Definition quote (s : string) : string :=
  (dquote ++ quoteBody s ++ dquote)%string.

Definition numberToString (n : Z) : string :=
  NilZero.string_of_int (Z.to_int n).

(** The gap of [JSON.stringify(value, undefined, '  ')]. *)
Definition gap : string := "  ".

Definition wrap (open close indent inner : string) (partial : list string) : string :=
  match partial with
  | [] => (open ++ close)%string
  | _ => (open ++ newline ++ inner
           ++ Js.join ("," ++ newline ++ inner) partial
           ++ newline ++ indent ++ close)%string
  end.

(** SerializeJSONProperty at the given indentation; [None] is the
    [undefined] that the serializer gives for an [undefined] value. *)
Fixpoint serialize (indent : string) (v : JsValue) : option string :=
  match v with
  | JUndefined => None
  | JNull => Some "null"
  | JBool b => Some (if b then "true" else "false")
  | JNum n => Some (numberToString n)
  | JStr s => Some (quote s)
  | JArr items =>
      let inner := (indent ++ gap)%string in
      let partial :=
        map (fun x => match serialize inner x with
                      | Some t => t
                      | None => "null"
                      end) items in
      Some (wrap "[" "]" indent inner partial)
  | JObj props =>
      let inner := (indent ++ gap)%string in
      let partial :=
        flat_map (fun p => match serialize inner (snd p) with
                           | Some t => [(quote (fst p) ++ ": " ++ t)%string]
                           | None => []
                           end) props in
      Some (wrap "{" "}" indent inner partial)
  end.

(** [JSON.stringify(v, undefined, '  ')] *)
Definition stringify (v : JsValue) : option string := serialize EmptyString v.

End JSON.

(** ** Messages *)

(** A content block: its [type] tag and its other properties. *)
Record ContentBlock : Type := {
  type : string;
  props : list (string * JsValue)
}.

(** [string | ContentBlock[]] *)
Inductive MessageContent : Type :=
| Str (s : string)
| Blocks (blocks : list ContentBlock).

(** The message classes the program tells apart with [instanceof] and
    that [endOn] names. *)
Inductive MessageType : Type := human | ai | system | tool | generic.

Definition MessageType_eqb (a b : MessageType) : bool :=
  match a, b with
  | human, human | ai, ai | system, system | tool, tool | generic, generic => true
  | _, _ => false
  end.

(** What the token counter reads in [msg.response_metadata]:
    [Missing] when there is no [tokenUsage] with a [totalTokens] in it,
    otherwise [Number(tokenUsage.totalTokens)], which is [NaN] or a number. *)
Inductive TotalTokens : Type :=
| Missing
| NaN
| Num (n : Z).

Record BaseMessage : Type := {
  getType : MessageType;
  content : MessageContent;
  response_metadata : TotalTokens
}.

Definition HumanMessage (text : string) : BaseMessage :=
  {| getType := human; content := Str text; response_metadata := Missing |}.

Definition SystemMessage (text : string) : BaseMessage :=
  {| getType := system; content := Str text; response_metadata := Missing |}.

Definition AIMessage (text : string) (usage : TotalTokens) : BaseMessage :=
  {| getType := ai; content := Str text; response_metadata := usage |}.

(** ** Content normaliser *)

Definition supported (c : ContentBlock) : bool :=
  String.eqb (type c) "image_url" || String.eqb (type c) "text".

(** The [result] array of [contentToString]: [c[c.type]] of every block
    whose type is ['image_url'] or ['text'], in order. *)
Fixpoint collect (blocks : list ContentBlock) : list JsValue :=
  match blocks with
  | [] => []
  | c :: rest =>
      if supported c then getProp (type c) (props c) :: collect rest
      else collect rest
  end.

(** The warnings of the [default] branch, one per unsupported block. *)
Fixpoint unsupportedWarnings (blocks : list ContentBlock) : list string :=
  match blocks with
  | [] => []
  | c :: rest =>
      if supported c then unsupportedWarnings rest
      else ("unsupported content type: " ++ type c)%string :: unsupportedWarnings rest
  end.

(** [contentToString]. The declared result type is [string], but with no
    supported block [result[0]] is [undefined] and so is
    [JSON.stringify(result[0], undefined, '  ')]: that is [None]. *)
Definition contentToString (c : MessageContent) : option string :=
  match c with
  | Str s => Some s
  | Blocks blocks =>
      let result := collect blocks in
      if (1 <? length result)%nat then JSON.stringify (JArr result)
      else match nth 0 result JUndefined with
           | JStr s => Some s
           | v => JSON.stringify v
           end
  end.

(** ** Token estimator *)

(** [estimateTokens]: [content.split(/\s+/).length] of the normalised
    content; [None] is the TypeError of calling [split] on [undefined]. *)
Definition estimateTokens (c : MessageContent) : option nat :=
  s <- contentToString c ;;
  Some (length (Js.splitWs s)).

(** The reducer of [tokenCounter]: one message folded into the running
    total. *)
Definition countMessage (tokens : Z) (msg : BaseMessage) : option Z :=
  match response_metadata msg with
  | Num totalTokens =>
      Some (if (totalTokens >? tokens)%Z then totalTokens else tokens)
  | NaN | Missing =>
      e <- estimateTokens (content msg) ;;
      Some (tokens + Z.of_nat e)%Z
  end.

(** What the reducer writes with [console.warn] for one message, apart
    from the warnings of the content normaliser. *)
Definition countWarning (msg : BaseMessage) : option string :=
  match response_metadata msg with
  | Num _ => None
  | NaN => Some "Invalid token count in response metadata"
  | Missing =>
      if MessageType_eqb (getType msg) ai
      then Some "Missing token count in AIMessage response metadata"
      else None
  end.

(** [msgs.reduce(..., 0)] *)
Fixpoint reduce (tokens : Z) (msgs : list BaseMessage) : option Z :=
  match msgs with
  | [] => Some tokens
  | msg :: rest => t <- countMessage tokens msg ;; reduce t rest
  end.

(** The [tokenCounter] option of the trimmer. *)
Definition tokenCounter (msgs : list BaseMessage) : option Z := reduce 0 msgs.

(** ** History trimmer

    [trimMessages] is imported from [@langchain/core/messages]; the
    program only configures it ([strategy: 'last'], [endOn: 'human'],
    [allowPartial: true], the [tokenCounter] above, [maxTokens: 1000]).
    [LangChain] follows the library's path for [strategy: 'last']:
    - [endOn] drops messages from the end of the list until the last
      one has the given type;
    - the remaining list is reversed, and the longest prefix of the
      reversed list (the newest messages, newest first) for which
      [tokenCounter] answers at most [maxTokens] is kept; the counter is
      called on the reversed prefixes, longest first;
    - when a message is left out, [allowPartial] lets the library put a
      cut-down copy of the first message left out behind the kept ones.
      How it cuts (by content block, by line) is the library's business:
      it is the parameter [includePartial], called with the kept prefix
      and the messages left out, both newest first;
    - the outcome is reversed back. *)

Module LangChain.
Section LastMaxTokens.

Variable maxTokens : Z.
Variable tokenCounter : list BaseMessage -> option Z.
Variable endOn : MessageType.
Variable includePartial :
  list BaseMessage -> list BaseMessage -> option (list BaseMessage).

(** The [endOn] loop, on the list newest first. *)
Fixpoint dropUntil (reversed : list BaseMessage) : list BaseMessage :=
  match reversed with
  | [] => []
  | m :: rest =>
      if MessageType_eqb (getType m) endOn then reversed else dropUntil rest
  end.

(** The search loop of [_firstMaxTokens]: the first [k], counting down,
    whose prefix the counter accepts; 0 when there is none. *)
Fixpoint findFit (msgs : list BaseMessage) (k : nat) : option nat :=
  match k with
  | O => Some O
  | S k' =>
      t <- tokenCounter (firstn k msgs) ;;
      if (t <=? maxTokens)%Z then Some k else findFit msgs k'
  end.

Definition firstMaxTokens (msgs : list BaseMessage) : option (list BaseMessage) :=
  idx <- findFit msgs (length msgs) ;;
  if (idx <? length msgs)%nat then
    extra <- includePartial (firstn idx msgs) (skipn idx msgs) ;;
    Some (firstn idx msgs ++ extra)
  else Some (firstn idx msgs).

Definition lastMaxTokens (msgs : list BaseMessage) : option (list BaseMessage) :=
  let reversed := dropUntil (rev msgs) in
  kept <- firstMaxTokens reversed ;;
  Some (rev kept).

End LastMaxTokens.
End LangChain.

(** The partial-inclusion step of the library, for every budget. *)
Definition PartialStep : Type :=
  Z -> list BaseMessage -> list BaseMessage -> option (list BaseMessage).

(** The step never includes anything; what the library does with
    [allowPartial: false]. *)
Definition noPartial : PartialStep := fun _ _ _ => Some [].

(** A cut-down copy has the class of the message it was cut from. *)
Definition keepsType (P : PartialStep) : Prop :=
  forall B kept m rest extra,
    P B kept (m :: rest) = Some extra ->
    Forall (fun x => getType x = getType m) extra.

(** [trimMessages] as the program configures it, for a budget [B]. *)
Definition trimMessages (P : PartialStep) (B : Z) (msgs : list BaseMessage)
  : option (list BaseMessage) :=
  LangChain.lastMaxTokens B tokenCounter human (P B) msgs.

(** [trimmer]: [maxTokens: 1000]. *)
Definition trimmer (P : PartialStep) (msgs : list BaseMessage)
  : option (list BaseMessage) :=
  trimMessages P 1000 msgs.

(** The messages that [endOn: 'human'] leaves: the conversation up to
    its last human message. *)
Definition upToLastHuman (msgs : list BaseMessage) : list BaseMessage :=
  rev (LangChain.dropUntil human (rev msgs)).

(** ** Prompt templates

    [Handlebars.compile] is the template engine of the [handlebars]
    package. [Handlebars] gives the meaning of the templates made of
    literal text and of the mustaches [{{input}}] (the value, HTML-escaped)
    and [{{{input}}}] (the value as it is), with optional white space
    inside the braces. Every other template (other expressions, blocks,
    comments, a backslash in front of a mustache, unbalanced braces) is
    left to the engine, a field of [Platform] below. *)

Module Handlebars.

Inductive Statement : Type :=
| Content (text : string)
| Mustache (escaped : bool).

(** [Utils.escapeExpression] on a string *)
Definition escapeChar (c : ascii) : string :=
  let n := nat_of_ascii c in
  if (n =? 38)%nat then "&amp;"
  else if (n =? 60)%nat then "&lt;"
  else if (n =? 62)%nat then "&gt;"
  else if (n =? 34)%nat then "&quot;"
  else if (n =? 39)%nat then "&#x27;"
  else if (n =? 96)%nat then "&#x60;"
  else if (n =? 61)%nat then "&#x3D;"
  else String c EmptyString.

Fixpoint escapeExpression (s : string) : string :=
  match s with
  | EmptyString => EmptyString
  | String c s' => (escapeChar c ++ escapeExpression s')%string
  end.

Inductive Mode : Type := InContent | InDouble | InTriple.

Definition isOpen (c : ascii) : bool := (nat_of_ascii c =? 123)%nat.
Definition isClose (c : ascii) : bool := (nat_of_ascii c =? 125)%nat.
Definition isBackslash (c : ascii) : bool := (nat_of_ascii c =? 92)%nat.

Fixpoint endsWithBackslash (s : string) : bool :=
  match s with
  | EmptyString => false
  | String c EmptyString => isBackslash c
  | String _ s' => endsWithBackslash s'
  end.

Definition isInput (expr : string) : bool := String.eqb (Js.trim expr) "input".

Definition snoc (s : string) (c : ascii) : string :=
  (s ++ String c EmptyString)%string.

(** One pass over the template; [acc] is the text, or the expression,
    read since the last brace. [None]: outside the templates above. *)
Fixpoint scan (mode : Mode) (acc : string) (s : string) : option (list Statement) :=
  match mode, s with
  | InContent, EmptyString => Some [Content acc]
  | InContent, String c1 (String c2 (String c3 rest as s2) as s1) =>
      if isOpen c1 && isOpen c2 then
        if endsWithBackslash acc then None
        else if isOpen c3 then
          rest' <- scan InTriple EmptyString rest ;; Some (Content acc :: rest')
        else
          rest' <- scan InDouble EmptyString s2 ;; Some (Content acc :: rest')
      else scan InContent (snoc acc c1) s1
  | InContent, String c1 (String c2 EmptyString as s1) =>
      if isOpen c1 && isOpen c2 then None
      else scan InContent (snoc acc c1) s1
  | InContent, String c1 EmptyString => Some [Content (snoc acc c1)]
  | InDouble, String c1 (String c2 (String c3 _ as s2) as s1) =>
      if isClose c1 && isClose c2 then
        if isClose c3 then None
        else if isInput acc then
          rest' <- scan InContent EmptyString s2 ;; Some (Mustache true :: rest')
        else None
      else scan InDouble (snoc acc c1) s1
  | InDouble, String c1 (String c2 EmptyString) =>
      if isClose c1 && isClose c2 && isInput acc
      then Some [Mustache true; Content EmptyString]
      else None
  | InDouble, _ => None
  | InTriple, String c1 (String c2 (String c3 rest) as s1) =>
      if isClose c1 && isClose c2 && isClose c3 then
        if isInput acc then
          rest' <- scan InContent EmptyString rest ;; Some (Mustache false :: rest')
        else None
      else scan InTriple (snoc acc c1) s1
  | InTriple, _ => None
  end.

Definition parse (template : string) : option (list Statement) :=
  scan InContent EmptyString template.

Fixpoint render (program : list Statement) (input : string) : string :=
  match program with
  | [] => EmptyString
  | Content text :: rest => (text ++ render rest input)%string
  | Mustache true :: rest => (escapeExpression input ++ render rest input)%string
  | Mustache false :: rest => (input ++ render rest input)%string
  end.

End Handlebars.

(** ** Bot definitions *)

Record BotDefinition : Type := {
  bot_systemMessage : string;
  bot_initialPromptTemplate : string
}.

(** A compiled template, applied to [{ input }]; [None] when rendering
    throws. *)
Definition TemplateDelegate : Type := string -> option string.

Record CompiledBot : Type := {
  systemMessage : string;
  initialPromptTemplate : TemplateDelegate
}.

(** The outcome of an awaited call that may reject. *)
Inductive Result (A : Type) : Type :=
| Ok (value : A)
| Throw (message : string).
Arguments Ok {A} value.
Arguments Throw {A} message.

Definition andThen {A B : Type} (r : Result A) (k : A -> Result B) : Result B :=
  match r with
  | Ok a => k a
  | Throw message => Throw message
  end.

(** [botDefinitionSchema.parse]: an object whose [systemMessage] and
    [initialPromptTemplate] are strings; other keys are dropped. The text
    of the error it throws otherwise is not modelled. *)
Definition botDefinitionSchema (v : JsValue) : Result BotDefinition :=
  match v with
  | JObj fields =>
      match getProp "systemMessage" fields, getProp "initialPromptTemplate" fields with
      | JStr s, JStr t =>
          Ok {| bot_systemMessage := s; bot_initialPromptTemplate := t |}
      | _, _ => Throw "Invalid input"
      end
  | _ => Throw "Invalid input"
  end.

(** The built-in bot. *)
Definition defaultBot : BotDefinition :=
  {| bot_systemMessage :=
       "You are a helpful AI assistant. Responses will be displayed on the command line in plain text so please use minimal formatting.";
     bot_initialPromptTemplate := "{{input}}" |}.

(** ** The platform

    What the line handler awaits or calls outside the program: the file
    system, [JSON.parse], the template engine on the templates that
    [Handlebars] does not cover, the partial-inclusion step of the
    trimmer, the chat model of the plain variant and the agent of the
    agent variant ([None]: the call rejects). *)

Record Agent : Type := { systemPrompt : string }.

Record Platform : Type := {
  readFile : option string -> Result string;
  JSON_parse : string -> Result JsValue;
  handlebars : string -> TemplateDelegate;
  includePartial : PartialStep;
  llm_invoke : list BaseMessage -> option BaseMessage;
  agent_invoke : Agent -> list BaseMessage -> option (list BaseMessage)
}.

Section Controller.

Variable W : Platform.

(** [loadBotDefinition]; the file name is [undefined] ([None]) when the
    line has nothing after [.load]. *)
Definition loadBotDefinition (file : option string) : Result BotDefinition :=
  andThen (readFile W file) (fun text =>
  andThen (JSON_parse W text) botDefinitionSchema).

(** [Handlebars.compile] *)
Definition compile (template : string) : TemplateDelegate :=
  match Handlebars.parse template with
  | Some program => fun input => Some (Handlebars.render program input)
  | None => handlebars W template
  end.

Definition compileBot (b : BotDefinition) : CompiledBot :=
  {| systemMessage := bot_systemMessage b;
     initialPromptTemplate := compile (bot_initialPromptTemplate b) |}.

Definition createAgent (b : BotDefinition) : Agent :=
  {| systemPrompt := bot_systemMessage b |}.

End Controller.

(** ** Command dispatch *)

(** The branch of the line handler that a line takes. *)
Inductive Command : Type :=
| Exit
| Reset
| Load (file : option string)
| Chat (input : string).

(** The tests at the head of the handler, in their order:
    [input == null || input.trim() === '.exit'],
    [input.trim() === '.reset'],
    [input.trim().split(' ')[0] === '.load'] with the file name
    [input.trim().split(' ')[1]]. *)
Definition dispatch (input : option string) : Command :=
  match input with
  | None => Exit
  | Some line =>
      let trimmed := Js.trim line in
      if String.eqb trimmed ".exit" then Exit
      else if String.eqb trimmed ".reset" then Reset
      else
        let pieces := Js.split " "%char trimmed in
        match nth_error pieces 0 with
        | Some first =>
            if String.eqb first ".load" then Load (nth_error pieces 1)
            else Chat line
        | None => Chat line
        end
  end.

(** What the handler does that the outside can see. The debugging dump
    of the trimmed history and the lines the token counter prints are
    not recorded. *)
Inductive Event : Type :=
| TermClose
| TermPrompt
| ConsoleInfo (message : string)
| ConsoleError (message : string)
| LlmInvoke (messages : list BaseMessage)
| AgentInvoke (agent : Agent) (messages : list BaseMessage)
| StdoutWrite (text : string)
| ProcessExit (code : Z).

Definition fatal : list Event :=
  [ConsoleError "Unexpected error processing user input"; ProcessExit 1].

Definition loadError (message : string) : Event :=
  ConsoleError ("Error loading bot definition from file: " ++ message)%string.

Definition loaded (file : option string) : Event :=
  ConsoleInfo ("Loaded bot definition from file: "
               ++ match file with Some f => f | None => "undefined" end)%string.

Definition blankLine : string :=
  String (ascii_of_nat 10) (String (ascii_of_nat 10) EmptyString).

(** ** Session controller, plain variant

    The handler of [term.on('line', ...)] where the reply comes from
    [llm.invoke]: the system message heads every message list sent. *)

Module Plain.

Record Session : Type := {
  bot : BotDefinition;
  compiledBot : CompiledBot;
  conversation : list BaseMessage
}.

Definition withConversation (s : Session) (c : list BaseMessage) : Session :=
  {| bot := bot s; compiledBot := compiledBot s; conversation := c |}.

Section Handler.

Variable W : Platform.

(** The session the program starts with when no file is given. *)
Definition start : Session :=
  {| bot := defaultBot; compiledBot := compileBot W defaultBot; conversation := [] |}.

(** From [llm.invoke(messages)] to the next prompt. *)
Definition complete (s : Session) (messages : list BaseMessage)
  : Session * list Event :=
  match llm_invoke W messages with
  | None => (s, LlmInvoke messages :: fatal)
  | Some res =>
      let text :=
        match content res with
        | Str t => t
        | c => match contentToString c with
               | Some t => t
               | None => "undefined"
               end
        end in
      (withConversation s (conversation s ++ [res]),
       [LlmInvoke messages; StdoutWrite (text ++ blankLine)%string; TermPrompt])
  end.

Definition chat (s : Session) (input : string) : Session * list Event :=
  let messages := [SystemMessage (systemMessage (compiledBot s))] in
  match conversation s with
  | [] =>
      match initialPromptTemplate (compiledBot s) input with
      | None => (s, fatal)
      | Some prompt =>
          let s1 := withConversation s [HumanMessage prompt] in
          complete s1 (messages ++ firstn 1 (conversation s1))
      end
  | _ :: _ =>
      let s1 := withConversation s (conversation s ++ [HumanMessage input]) in
      match trimmer (includePartial W) (conversation s1) with
      | None => (s1, fatal)
      | Some trimmed =>
          let s2 := withConversation s1 trimmed in
          complete s2 (messages ++ conversation s2)
      end
  end.

Definition onLine (s : Session) (input : option string) : Session * list Event :=
  match dispatch input with
  | Exit => (s, [TermClose])
  | Reset => (withConversation s [], [TermPrompt])
  | Load file =>
      match loadBotDefinition W file with
      | Ok b =>
          ({| bot := b; compiledBot := compileBot W b; conversation := [] |},
           [loaded file; TermPrompt])
      | Throw message => (s, [loadError message; TermPrompt])
      end
  | Chat line => chat s line
  end.

End Handler.
End Plain.

(** ** Session controller, agent variant

    The handler of [src/index.ts]: the reply comes from the agent, which
    carries the system prompt it was created with; the message list sent
    starts empty, and the agent answers with the messages it was given
    followed by the new ones. *)

Module AgentMode.

Record Session : Type := {
  bot : BotDefinition;
  compiledBot : CompiledBot;
  agent : Agent;
  conversation : list BaseMessage
}.

Definition withConversation (s : Session) (c : list BaseMessage) : Session :=
  {| bot := bot s; compiledBot := compiledBot s; agent := agent s;
     conversation := c |}.

Section Handler.

Variable W : Platform.

Definition start : Session :=
  {| bot := defaultBot; compiledBot := compileBot W defaultBot;
     agent := createAgent defaultBot; conversation := [] |}.

(** From [agent.invoke({ messages })] to the next prompt. *)
Definition complete (s : Session) (messages : list BaseMessage)
  : Session * list Event :=
  match agent_invoke W (agent s) messages with
  | None => (s, AgentInvoke (agent s) messages :: fatal)
  | Some res =>
      let newMessages := skipn (length messages) res in
      (withConversation s (conversation s ++ newMessages),
       [AgentInvoke (agent s) messages; StdoutWrite blankLine; TermPrompt])
  end.

Definition chat (s : Session) (input : string) : Session * list Event :=
  match conversation s with
  | [] =>
      match initialPromptTemplate (compiledBot s) input with
      | None => (s, fatal)
      | Some prompt =>
          let s1 := withConversation s [HumanMessage prompt] in
          complete s1 (firstn 1 (conversation s1))
      end
  | _ :: _ =>
      let s1 := withConversation s (conversation s ++ [HumanMessage input]) in
      match trimmer (includePartial W) (conversation s1) with
      | None => (s1, fatal)
      | Some trimmed =>
          let s2 := withConversation s1 trimmed in
          complete s2 (conversation s2)
      end
  end.

Definition onLine (s : Session) (input : option string) : Session * list Event :=
  match dispatch input with
  | Exit => (s, [TermClose])
  | Reset => (withConversation s [], [TermPrompt])
  | Load file =>
      match loadBotDefinition W file with
      | Ok b =>
          ({| bot := b; compiledBot := compileBot W b; agent := createAgent b;
              conversation := [] |},
           [loaded file; TermPrompt])
      | Throw message => (s, [loadError message; TermPrompt])
      end
  | Chat line => chat s line
  end.

End Handler.
End AgentMode.

(** ** Vocabulary of the statements *)

(** The number of whitespace-delimited tokens of a string: its maximal
    runs of characters that are not white space, each counted at its
    last character. *)
Fixpoint countWords (s : string) : nat :=
  match s with
  | EmptyString => 0
  | String c s' =>
      if Js.isWhiteSpace c then countWords s'
      else match s' with
           | EmptyString => 1
           | String c' _ =>
               if Js.isWhiteSpace c' then S (countWords s') else countWords s'
           end
  end.

(** 1 when nothing stands in front of the first white space: the string
    is empty or starts with white space. *)
Definition leadingGap (s : string) : nat :=
  match s with
  | EmptyString => 1
  | String c _ => if Js.isWhiteSpace c then 1 else 0
  end.

(** 1 when the string ends with white space. *)
Fixpoint trailingGap (s : string) : nat :=
  match s with
  | EmptyString => 0
  | String c EmptyString => if Js.isWhiteSpace c then 1 else 0
  | String _ s' => trailingGap s'
  end.

(** A message the token counter can count: it reports a usage, or its
    content normalises to a string. *)
Definition countable (m : BaseMessage) : Prop :=
  match response_metadata m with
  | Num _ => True
  | NaN | Missing => contentToString (content m) <> None
  end.

(** The counter accepts the list for the budget [B]. *)
Definition fits (B : Z) (msgs : list BaseMessage) : Prop :=
  exists n, tokenCounter msgs = Some n /\ (n <= B)%Z.

(** The counter answers more than the budget [B]. *)
Definition exceeds (B : Z) (msgs : list BaseMessage) : Prop :=
  exists n, tokenCounter msgs = Some n /\ (B < n)%Z.

(** The partial-inclusion step adds a cut-down copy only when the
    counter accepts it together with the kept messages, newest first. *)
Definition addsOnlyWhatFits (P : PartialStep) : Prop :=
  forall B kept rest extra,
    P B kept rest = Some extra -> extra = [] \/ fits B (kept ++ extra).


(** The answer of the trimmer once the conversation up to its last
    human message is divided into the messages left out and the
    messages kept: with nothing left out the kept messages; otherwise
    the kept messages behind what the partial-inclusion step makes of
    the messages left out. *)
Definition assemble (P : PartialStep) (B : Z) (older kept : list BaseMessage)
  : option (list BaseMessage) :=
  match older with
  | [] => Some kept
  | _ :: _ => extra <- P B (rev kept) (rev older) ;; Some (rev extra ++ kept)
  end.

(** The first whitespace-delimited token of a line; empty when the line
    has none. *)
Fixpoint firstNonEmpty (pieces : list string) : string :=
  match pieces with
  | [] => EmptyString
  | p :: ps => if Js.isEmpty p then firstNonEmpty ps else p
  end.

Definition firstToken (line : string) : string := firstNonEmpty (Js.splitWs line).

Inductive CommandName : Type := IsExit | IsReset | IsLoad | IsChat.

Definition commandName (c : Command) : CommandName :=
  match c with
  | Exit => IsExit
  | Reset => IsReset
  | Load _ => IsLoad
  | Chat _ => IsChat
  end.

(** Recognition by the first whitespace-delimited token, as the
    description of the REPL commands words it. *)
Definition commandByFirstToken (line : string) : CommandName :=
  let t := firstToken line in
  if String.eqb t ".exit" then IsExit
  else if String.eqb t ".reset" then IsReset
  else if String.eqb t ".load" then IsLoad
  else IsChat.

(** No character of [s] is white space. *)
Fixpoint hasNoWhiteSpace (s : string) : bool :=
  match s with
  | EmptyString => true
  | String c s' => negb (Js.isWhiteSpace c) && hasNoWhiteSpace s'
  end.

(** [s] starts with [prefix]. *)
Fixpoint startsWith (prefix s : string) : bool :=
  match prefix, s with
  | EmptyString, _ => true
  | String a p, String b t => Ascii.eqb a b && startsWith p t
  | String _ _, EmptyString => false
  end.

(** The ways a [.load] can fail: the file cannot be read, its text is
    not JSON, or the value does not have the shape of a bot definition. *)
Definition loadFails (W : Platform) (file : option string) : Prop :=
  (exists message, readFile W file = Throw message)
  \/ (exists text message,
        readFile W file = Ok text /\ JSON_parse W text = Throw message)
  \/ (exists text v message,
        readFile W file = Ok text /\ JSON_parse W text = Ok v
        /\ botDefinitionSchema v = Throw message).

(** ** Sample data *)

(** A platform without files, whose model answers [ok]. *)
Definition offline : Platform :=
  {| readFile := fun _ => Throw "ENOENT: no such file or directory";
     JSON_parse := fun _ => Throw "Unexpected token";
     handlebars := fun _ _ => None;
     includePartial := noPartial;
     llm_invoke := fun _ => Some (AIMessage "ok" (Num 12));
     agent_invoke := fun _ messages => Some (messages ++ [AIMessage "ok" (Num 12)]) |}.

Definition qBot : BotDefinition :=
  {| bot_systemMessage := "S"; bot_initialPromptTemplate := "Q: {{input}}" |}.

Definition twentyWords : string :=
  "a b c d e f g h i j k l m n o p q r s t".

(** A short exchange whose reply reports 990 tokens, and the next
    question of twenty words. *)
Definition reportedExchange : list BaseMessage :=
  [HumanMessage "hi"; AIMessage "x" (Num 990); HumanMessage twentyWords].

(** The session right after the bot definition [b] is taken up, in each
    variant. *)
Definition plainSession (W : Platform) (b : BotDefinition) : Plain.Session :=
  {| Plain.bot := b; Plain.compiledBot := compileBot W b; Plain.conversation := [] |}.

Definition agentSession (W : Platform) (b : BotDefinition) : AgentMode.Session :=
  {| AgentMode.bot := b; AgentMode.compiledBot := compileBot W b;
     AgentMode.agent := createAgent b; AgentMode.conversation := [] |}.

(** [.load], a tab, and a file name. *)
Definition tabbedLoad : string :=
  (".load" ++ String (ascii_of_nat 9) "bot.json")%string.

(** A window that starts with a reply. *)
Definition replyFirst : list BaseMessage :=
  [AIMessage "sure" Missing; HumanMessage "thanks"].

(** ** Start of the program *)

(** [if (args.file)]: a file name was given and is not the empty
    string. *)
Definition given (file : option string) : bool :=
  match file with
  | Some (String _ _) => true
  | Some EmptyString | None => false
  end.

(** The top level of the plain variant up to the first prompt: the
    built-in bot, replaced by the definition in the file when one is
    given; a file that does not load ends the process with code 1.
    [None]: the program does not reach the REPL. *)
Definition plainStartup (W : Platform) (file : option string)
  : option Plain.Session * list Event :=
  if given file then
    match loadBotDefinition W file with
    | Ok b => (Some (plainSession W b), [TermPrompt])
    | Throw message => (None, [loadError message; ProcessExit 1])
    end
  else (Some (plainSession W defaultBot), [TermPrompt]).

(** The top level of the agent variant: the agent is created from the
    built-in bot before the command line is read, and is not created
    again when a file is loaded. *)
Definition agentStartup (W : Platform) (file : option string)
  : option AgentMode.Session * list Event :=
  let agent := createAgent defaultBot in
  if given file then
    match loadBotDefinition W file with
    | Ok b =>
        (Some {| AgentMode.bot := b; AgentMode.compiledBot := compileBot W b;
                 AgentMode.agent := agent; AgentMode.conversation := [] |},
         [TermPrompt])
    | Throw message => (None, [loadError message; ProcessExit 1])
    end
  else
    (Some {| AgentMode.bot := defaultBot;
             AgentMode.compiledBot := compileBot W defaultBot;
             AgentMode.agent := agent; AgentMode.conversation := [] |},
     [TermPrompt]).

(** ** Further vocabulary *)

(** A message the counter estimates: it reports no numeric usage. *)
Definition estimated (m : BaseMessage) : bool :=
  match response_metadata m with
  | Num _ => false
  | NaN | Missing => true
  end.

(** A [text] block. *)
Definition textBlock (text : string) : ContentBlock :=
  {| type := "text"; props := [("text", JStr text)] |}.

(** The events after which the handler does nothing more for the line:
    the next prompt, the closing of the terminal, the end of the
    process. *)
Definition closing (e : Event) : bool :=
  match e with
  | TermPrompt | TermClose | ProcessExit _ => true
  | _ => false
  end.

(** The compiled bot is the one compiled from the bot definition. *)
Definition plainSynced (W : Platform) (s : Plain.Session) : Prop :=
  Plain.compiledBot s = compileBot W (Plain.bot s).

(** The compiled bot and the agent are the ones made from the bot
    definition. *)
Definition agentSynced (W : Platform) (s : AgentMode.Session) : Prop :=
  AgentMode.compiledBot s = compileBot W (AgentMode.bot s)
  /\ AgentMode.agent s = createAgent (AgentMode.bot s).

(** None of the characters that [{{input}}] escapes. *)
Fixpoint plainText (s : string) : bool :=
  match s with
  | EmptyString => true
  | String c s' =>
      String.eqb (Handlebars.escapeChar c) (String c EmptyString) && plainText s'
  end.

(** The JSON value of a bot definition file. *)
Definition botObject (b : BotDefinition) : JsValue :=
  JObj [("systemMessage", JStr (bot_systemMessage b));
        ("initialPromptTemplate", JStr (bot_initialPromptTemplate b))].

(** A platform with one file, [bot.json], that holds [qBot]. *)
Definition onDisk : Platform :=
  {| readFile := fun file =>
       match file with
       | Some f => if String.eqb f "bot.json" then Ok "{...}"
                   else Throw "ENOENT: no such file or directory"
       | None => Throw "The path argument must be of type string"
       end;
     JSON_parse := fun _ => Ok (botObject qBot);
     handlebars := fun _ _ => None;
     includePartial := noPartial;
     llm_invoke := fun _ => Some (AIMessage "ok" (Num 12));
     agent_invoke := fun _ messages => Some (messages ++ [AIMessage "ok" (Num 12)]) |}.

(** * Properties *)

(** ** Splitting at white space *)

Section SplitFacts.

Lemma splitWs_cons (s : string) : exists p ps, Js.splitWs s = p :: ps.
Proof.
  induction s as [|c s IH]; simpl.
  - now exists EmptyString, [].
  - destruct IH as (p & ps & E).
    destruct (Js.isWhiteSpace c).
    + destruct s as [|c' s']; [now exists EmptyString, [EmptyString]|].
      destruct (Js.isWhiteSpace c'); [now exists p, ps|].
      now exists EmptyString, (Js.splitWs (String c' s')).
    + rewrite E. simpl. now exists (String c p), ps.
Qed.

Lemma consPiece_length (c : ascii) (pieces : list string) :
  pieces <> [] -> length (Js.consPiece c pieces) = length pieces.
Proof. destruct pieces; [congruence | reflexivity]. Qed.

Lemma splitWs_length_pos (s : string) : 1 <= length (Js.splitWs s).
Proof. destruct (splitWs_cons s) as (p & ps & ->). simpl. lia. Qed.

(** The pieces are the words, and one empty piece for each end of the
    string where no word touches it. *)
Lemma splitWs_length (s : string) :
  length (Js.splitWs s) = countWords s + leadingGap s + trailingGap s.
Proof.
  induction s as [|c s IH]; [reflexivity|].
  cbn [Js.splitWs countWords leadingGap].
  destruct (Js.isWhiteSpace c) eqn:Hc.
  - destruct s as [|c' s']; [simpl; now rewrite Hc|].
    change (trailingGap (String c (String c' s'))) with (trailingGap (String c' s')).
    cbn [leadingGap] in IH.
    destruct (Js.isWhiteSpace c') eqn:Hc'.
    + rewrite IH. lia.
    + cbn [length]. rewrite IH. lia.
  - rewrite consPiece_length
      by (destruct (splitWs_cons s) as (p & ps & ->); discriminate).
    destruct s as [|c' s']; [simpl; now rewrite Hc|].
    change (trailingGap (String c (String c' s'))) with (trailingGap (String c' s')).
    cbn [leadingGap] in IH.
    destruct (Js.isWhiteSpace c') eqn:Hc'; rewrite IH; lia.
Qed.

Lemma gaps_le_2 (s : string) : leadingGap s + trailingGap s <= 2.
Proof.
  assert (T : trailingGap s <= 1).
  { induction s as [|c s IH]; [simpl; lia|].
    destruct s as [|c' s']; [simpl; destruct (Js.isWhiteSpace c); lia|].
    exact IH. }
  assert (L : leadingGap s <= 1)
    by (destruct s as [|c s]; simpl; [lia | destruct (Js.isWhiteSpace c); lia]).
  lia.
Qed.

End SplitFacts.

(** ** Token estimator and token counter *)

Section CounterFacts.

Lemma estimateTokens_pieces (c : MessageContent) :
  estimateTokens c
  = option_map (fun s => length (Js.splitWs s)) (contentToString c).
Proof. unfold estimateTokens. now destruct (contentToString c). Qed.

Lemma estimateTokens_pos (c : MessageContent) (e : nat) :
  estimateTokens c = Some e -> 1 <= e.
Proof.
  rewrite estimateTokens_pieces.
  destruct (contentToString c) as [s|]; [|discriminate].
  intros [= <-]. apply splitWs_length_pos.
Qed.

Lemma estimateTokens_Str (s : string) :
  exists e, estimateTokens (Str s) = Some e /\ 1 <= e.
Proof.
  exists (length (Js.splitWs s)). split; [reflexivity | apply splitWs_length_pos].
Qed.

Lemma collect_unsupported (blocks : list ContentBlock) :
  forallb (fun c => negb (supported c)) blocks = true -> collect blocks = [].
Proof.
  induction blocks as [|c blocks IH]; [reflexivity|].
  simpl. destruct (supported c); [discriminate | exact IH].
Qed.

(** Without a supported block there is nothing to split. *)
Lemma estimateTokens_unsupported (blocks : list ContentBlock) :
  forallb (fun c => negb (supported c)) blocks = true ->
  estimateTokens (Blocks blocks) = None.
Proof.
  intros H. unfold estimateTokens, contentToString.
  now rewrite (collect_unsupported _ H).
Qed.

Lemma countMessage_Num (t n : Z) (m : BaseMessage) :
  response_metadata m = Num n -> countMessage t m = Some (Z.max t n).
Proof.
  intros H. unfold countMessage. rewrite H. f_equal.
  destruct (n >? t)%Z eqn:E; lia.
Qed.

Lemma countMessage_estimate (t : Z) (m : BaseMessage) :
  (forall n, response_metadata m <> Num n) ->
  countMessage t m
  = option_map (fun e => (t + Z.of_nat e)%Z) (estimateTokens (content m)).
Proof.
  intros H. unfold countMessage.
  destruct (response_metadata m) as [| |n]; [| |now destruct (H n)];
    now destruct (estimateTokens (content m)).
Qed.

Lemma countMessage_mono (t t' : Z) (m : BaseMessage) :
  countMessage t m = Some t' -> (t <= t')%Z.
Proof.
  unfold countMessage.
  destruct (response_metadata m) as [| |n].
  1,2: destruct (estimateTokens (content m)); simpl; [intros [= <-]; lia | discriminate].
  intros [= <-]. destruct (n >? t)%Z eqn:E; lia.
Qed.

Lemma countMessage_countable (t : Z) (m : BaseMessage) :
  countable m -> exists t', countMessage t m = Some t'.
Proof.
  unfold countable, countMessage, estimateTokens.
  destruct (response_metadata m); intros H; try (eexists; reflexivity);
    (destruct (contentToString (content m)); [eexists; reflexivity | congruence]).
Qed.

Lemma reduce_app (t : Z) (a b : list BaseMessage) :
  reduce t (a ++ b) = (t' <- reduce t a ;; reduce t' b).
Proof.
  revert t. induction a as [|m a IH]; intros t; [reflexivity|].
  simpl. destruct (countMessage t m); [apply IH | reflexivity].
Qed.

Lemma reduce_mono (msgs : list BaseMessage) :
  forall t t', reduce t msgs = Some t' -> (t <= t')%Z.
Proof.
  induction msgs as [|m msgs IH]; intros t t'; simpl.
  - intros [= <-]. lia.
  - destruct (countMessage t m) as [u|] eqn:E; [|discriminate].
    simpl. intros H. apply countMessage_mono in E. apply IH in H. lia.
Qed.

Lemma reduce_countable (msgs : list BaseMessage) :
  Forall countable msgs -> forall t, exists t', reduce t msgs = Some t'.
Proof.
  induction 1 as [|m msgs Hm _ IH]; intros t; [now exists t|].
  simpl. destruct (countMessage_countable t m Hm) as (u & ->). apply IH.
Qed.

Lemma reduce_estimates (msgs : list BaseMessage) (es : list nat) :
  Forall2 (fun m e => response_metadata m = Missing
                      /\ estimateTokens (content m) = Some e) msgs es ->
  forall t, reduce t msgs = Some (t + Z.of_nat (list_sum es))%Z.
Proof.
  induction 1 as [|m e msgs es [Hm He] _ IH]; intros t.
  - simpl. f_equal. lia.
  - simpl. unfold countMessage. rewrite Hm, He. simpl. rewrite IH.
    f_equal. lia.
Qed.

(** The counter on a list is the counter on any of its prefixes,
    carried on. *)
Lemma tokenCounter_snoc (msgs : list BaseMessage) (m : BaseMessage) :
  tokenCounter (msgs ++ [m]) = (t <- tokenCounter msgs ;; countMessage t m).
Proof.
  unfold tokenCounter. rewrite reduce_app.
  destruct (reduce 0 msgs) as [t|]; [|reflexivity].
  simpl. now destruct (countMessage t m).
Qed.

End CounterFacts.

(** C2. The token counter goes through the messages in order with a
    running total that starts at 0; a message with a numeric reported
    usage turns the total [t] into [max t usage], so that a usage below
    the total leaves it as it is; any other message, one whose reported
    usage is not a number included (that one is reported with a warning),
    adds its estimate; the total never decreases, and it exists whenever
    every message can be counted. *)
Theorem tokenCounter_running_total :
  tokenCounter [] = Some 0%Z
  /\ (forall msgs m,
        tokenCounter (msgs ++ [m]) = (t <- tokenCounter msgs ;; countMessage t m))
  /\ (forall t m n,
        response_metadata m = Num n -> countMessage t m = Some (Z.max t n))
  /\ (forall t m,
        (forall n, response_metadata m <> Num n) ->
        countMessage t m
        = option_map (fun e => (t + Z.of_nat e)%Z) (estimateTokens (content m)))
  /\ (forall m,
        response_metadata m = NaN ->
        countWarning m = Some "Invalid token count in response metadata")
  /\ (forall msgs m t n,
        tokenCounter msgs = Some t -> response_metadata m = Num n -> (n < t)%Z ->
        tokenCounter (msgs ++ [m]) = Some t)
  /\ (forall msgs m t t',
        tokenCounter msgs = Some t -> tokenCounter (msgs ++ [m]) = Some t' ->
        (t <= t')%Z)
  /\ (forall msgs,
        Forall countable msgs -> exists t, tokenCounter msgs = Some t /\ (0 <= t)%Z).
Proof.
  split; [reflexivity|].
  split; [exact tokenCounter_snoc|].
  split; [intros t m n; apply countMessage_Num|].
  split; [exact countMessage_estimate|].
  split; [intros m H; unfold countWarning; now rewrite H|].
  split.
  { intros msgs m t n Ht Hm Hlt. rewrite tokenCounter_snoc, Ht. simpl.
    rewrite (countMessage_Num t n m Hm). f_equal. lia. }
  split.
  { intros msgs m t t' Ht. rewrite tokenCounter_snoc, Ht. simpl.
    apply countMessage_mono. }
  intros msgs H. destruct (reduce_countable msgs H 0%Z) as (t & Ht).
  exists t. split; [exact Ht | exact (reduce_mono msgs _ _ Ht)].
Qed.

Lemma tokenCounter_running_total_witness :
  tokenCounter [HumanMessage "a b c"] = Some 3%Z
  /\ tokenCounter ([HumanMessage "a b c"] ++ [AIMessage "x" (Num 2)]) = Some 3%Z.
Proof.
  split; [reflexivity|].
  apply (proj1 (proj2 (proj2 (proj2 (proj2 (proj2 tokenCounter_running_total)))))
           [HumanMessage "a b c"] (AIMessage "x" (Num 2)) 3%Z 2%Z);
    [reflexivity | reflexivity | lia].
Defined.

(** C5, as stated, fails on the empty string: it has no
    whitespace-delimited token, and its estimate is 1; and on a line with
    white space around its two words the counter answers 4. *)
Lemma estimate_is_not_the_word_count :
  contentToString (Str "") = Some ""
  /\ estimateTokens (Str "") = Some 1
  /\ countWords "" = 0
  /\ tokenCounter [HumanMessage " hi there "] = Some 4%Z
  /\ countWords " hi there " = 2.
Proof. repeat split. Qed.

(** C5, amended. Whenever the content normalises to a string, the
    estimate is the number of pieces that splitting it at the runs of
    white space gives: the number of whitespace-delimited tokens, plus
    one if the string is empty or starts with white space, plus one if it
    ends with white space; so it lies between the number of tokens and
    that number plus 2. For a conversation in which no message carries a
    reported usage and every content normalises, the counter answers the
    sum of these estimates. *)
Theorem estimate_counts_split_pieces :
  (forall c,
      estimateTokens c
      = option_map (fun s => countWords s + leadingGap s + trailingGap s)
          (contentToString c))
  /\ (forall c s e,
        contentToString c = Some s -> estimateTokens c = Some e ->
        countWords s <= e <= countWords s + 2)
  /\ (forall msgs es,
        Forall2 (fun m e => response_metadata m = Missing
                            /\ estimateTokens (content m) = Some e) msgs es ->
        tokenCounter msgs = Some (Z.of_nat (list_sum es))).
Proof.
  assert (E : forall c,
             estimateTokens c
             = option_map (fun s => countWords s + leadingGap s + trailingGap s)
                 (contentToString c)).
  { intros c. rewrite estimateTokens_pieces.
    destruct (contentToString c) as [s|]; [|reflexivity].
    simpl. now rewrite splitWs_length. }
  split; [exact E|]. split.
  - intros c s e Hs. rewrite E, Hs. simpl. intros [= <-].
    pose proof (gaps_le_2 s). lia.
  - intros msgs es H. unfold tokenCounter.
    now rewrite (reduce_estimates msgs es H 0%Z).
Qed.

Lemma estimate_counts_split_pieces_witness :
  tokenCounter [HumanMessage "a b"; AIMessage " c " Missing]
  = Some (Z.of_nat (list_sum [2; 3])).
Proof.
  apply (proj2 (proj2 estimate_counts_split_pieces)).
  repeat constructor.
Defined.

(** C10. With no supported block in a block list, [contentToString]
    gives [undefined] and [estimateTokens] throws: it answers no number,
    so not a number that is at least 1; and the counter throws with it. *)
Theorem estimateTokens_throws_without_supported_block :
  contentToString (Blocks []) = None
  /\ estimateTokens (Blocks []) = None
  /\ estimateTokens
       (Blocks [{| type := "tool_use"; props := [("name", JStr "calculator")] |}])
     = None
  /\ tokenCounter
       [{| getType := ai; content := Blocks []; response_metadata := Missing |}]
     = None.
Proof. repeat split. Qed.

(** ** History trimmer *)

Section TrimFacts.

Variable B : Z.
Variable step : list BaseMessage -> list BaseMessage -> option (list BaseMessage).

Lemma findFit_S (msgs : list BaseMessage) (k : nat) :
  LangChain.findFit B tokenCounter msgs (S k)
  = (t <- tokenCounter (firstn (S k) msgs) ;;
     if (t <=? B)%Z then Some (S k) else LangChain.findFit B tokenCounter msgs k).
Proof. reflexivity. Qed.

Lemma findFit_le (msgs : list BaseMessage) (k i : nat) :
  LangChain.findFit B tokenCounter msgs k = Some i -> i <= k.
Proof.
  induction k as [|k IH].
  - intros [= <-]. lia.
  - rewrite findFit_S.
    destruct (tokenCounter (firstn (S k) msgs)) as [t|]; [|discriminate].
    cbn [bind]. destruct (t <=? B)%Z.
    + intros [= <-]. lia.
    + intros H. apply IH in H. lia.
Qed.

Lemma findFit_fits (msgs : list BaseMessage) (k i : nat) :
  LangChain.findFit B tokenCounter msgs k = Some i -> i = 0 \/ fits B (firstn i msgs).
Proof.
  induction k as [|k IH].
  - intros [= <-]. now left.
  - rewrite findFit_S.
    destruct (tokenCounter (firstn (S k) msgs)) as [t|] eqn:E; [|discriminate].
    cbn [bind]. destruct (t <=? B)%Z eqn:L; [|exact IH].
    intros [= <-]. right. exists t. split; [exact E | lia].
Qed.

Lemma findFit_exceeds (msgs : list BaseMessage) (k i : nat) :
  LangChain.findFit B tokenCounter msgs k = Some i ->
  forall j, i < j <= k -> exceeds B (firstn j msgs).
Proof.
  induction k as [|k IH].
  - intros _ j Hj. lia.
  - rewrite findFit_S.
    destruct (tokenCounter (firstn (S k) msgs)) as [t|] eqn:E; [|discriminate].
    cbn [bind]. destruct (t <=? B)%Z eqn:L.
    + intros [= <-] j Hj. lia.
    + intros H j Hj. destruct (Nat.eq_dec j (S k)) as [->|Hne].
      * exists t. split; [exact E | lia].
      * apply (IH H). lia.
Qed.

Lemma findFit_here (msgs : list BaseMessage) (k : nat) :
  k = 0 \/ fits B (firstn k msgs) -> LangChain.findFit B tokenCounter msgs k = Some k.
Proof.
  destruct k as [|k]; [reflexivity|].
  intros [H|(n & E & L)]; [discriminate|].
  rewrite findFit_S, E. cbn [bind].
  destruct (n <=? B)%Z eqn:L'; [reflexivity | lia].
Qed.


Lemma dropUntil_split (l : list BaseMessage) :
  exists dropped,
    l = dropped ++ LangChain.dropUntil human l
    /\ Forall (fun m => MessageType_eqb (getType m) human = false) dropped.
Proof.
  induction l as [|m l (d & E & F)]; [now exists []|].
  simpl. destruct (MessageType_eqb (getType m) human) eqn:T.
  - now exists [].
  - exists (m :: d). split; [simpl; now rewrite <- E | now constructor].
Qed.

Lemma dropUntil_head (l : list BaseMessage) (m : BaseMessage) (rest : list BaseMessage) :
  LangChain.dropUntil human l = m :: rest -> getType m = human.
Proof.
  induction l as [|x l IH]; [discriminate|].
  simpl. destruct (MessageType_eqb (getType x) human) eqn:T; [|exact IH].
  intros [= <- _]. now destruct (getType x).
Qed.

Lemma dropUntil_fixed (l : list BaseMessage) :
  match l with
  | [] => True
  | m :: _ => getType m = human
  end ->
  LangChain.dropUntil human l = l.
Proof. destruct l as [|m l]; [reflexivity|]. simpl. now intros ->. Qed.


(** What [_firstMaxTokens] answers, in terms of the index found. *)
Lemma firstMaxTokens_shape (msgs r : list BaseMessage) :
  LangChain.firstMaxTokens B tokenCounter step msgs = Some r ->
  exists idx extra,
    LangChain.findFit B tokenCounter msgs (length msgs) = Some idx
    /\ r = firstn idx msgs ++ extra
    /\ (skipn idx msgs = [] -> extra = [])
    /\ (skipn idx msgs <> [] ->
        step (firstn idx msgs) (skipn idx msgs) = Some extra).
Proof.
  unfold LangChain.firstMaxTokens.
  destruct (LangChain.findFit B tokenCounter msgs (length msgs)) as [idx|] eqn:F; [|discriminate].
  cbn [bind]. pose proof (findFit_le _ _ _ F) as Hle.
  destruct (idx <? length msgs)%nat eqn:L.
  - apply Nat.ltb_lt in L.
    destruct (step (firstn idx msgs) (skipn idx msgs)) as [extra|] eqn:S;
      [|discriminate].
    cbn [bind]. intros [= <-]. exists idx, extra. repeat split; auto.
    intros H. apply (f_equal (@length _)) in H.
    rewrite length_skipn in H. simpl in H. lia.
  - apply Nat.ltb_ge in L. intros [= <-]. exists idx, [].
    repeat split; auto.
    + now rewrite app_nil_r.
    + intros H. now rewrite skipn_all2 in H.
Qed.

Lemma firstMaxTokens_all (msgs : list BaseMessage) :
  msgs = [] \/ fits B msgs -> LangChain.firstMaxTokens B tokenCounter step msgs = Some msgs.
Proof.
  intros H. unfold LangChain.firstMaxTokens.
  rewrite findFit_here.
  - cbn [bind]. rewrite Nat.ltb_irrefl. now rewrite firstn_all.
  - destruct H as [->|H]; [now left|]. right. now rewrite firstn_all.
Qed.

End TrimFacts.

Section TrimShape.

Variable P : PartialStep.
Variable B : Z.

Lemma upToLastHuman_split (c : list BaseMessage) :
  exists dropped,
    c = upToLastHuman c ++ dropped
    /\ Forall (fun m => MessageType_eqb (getType m) human = false) dropped.
Proof.
  unfold upToLastHuman.
  destruct (dropUntil_split (rev c)) as (d & E & F).
  exists (rev d). split; [|now apply Forall_rev].
  rewrite <- rev_app_distr, <- E. now rewrite rev_involutive.
Qed.

Lemma upToLastHuman_last (c init : list BaseMessage) (m : BaseMessage) :
  upToLastHuman c = init ++ [m] -> getType m = human.
Proof.
  unfold upToLastHuman. intros H.
  apply (f_equal (@rev _)) in H. rewrite rev_involutive, rev_app_distr in H.
  simpl in H. exact (dropUntil_head _ _ _ H).
Qed.

(** The trimmer, once the search has found its index. *)
Lemma trimMessages_at (c : list BaseMessage) (idx : nat) :
  let reversed := LangChain.dropUntil human (rev c) in
  LangChain.findFit B tokenCounter reversed (length reversed) = Some idx ->
  upToLastHuman c = rev (skipn idx reversed) ++ rev (firstn idx reversed)
  /\ trimMessages P B c
     = assemble P B (rev (skipn idx reversed)) (rev (firstn idx reversed)).
Proof.
  intros reversed F. split.
  { unfold upToLastHuman. fold reversed.
    now rewrite <- rev_app_distr, firstn_skipn. }
  unfold trimMessages, LangChain.lastMaxTokens, LangChain.firstMaxTokens.
  fold reversed. rewrite F. cbn [bind].
  pose proof (findFit_le _ _ _ _ F) as Hle.
  unfold assemble. rewrite !rev_involutive.
  destruct (idx <? length reversed)%nat eqn:L.
  - apply Nat.ltb_lt in L.
    destruct (skipn idx reversed) as [|x rest] eqn:S.
    { apply (f_equal (@length _)) in S. rewrite length_skipn in S.
      simpl in S. lia. }
    replace (rev (x :: rest)) with (rev rest ++ [x]) by reflexivity.
    destruct (rev rest ++ [x]) as [|y ys] eqn:R;
      [now destruct (rev rest)|].
    destruct (P B (firstn idx reversed) (x :: rest)) as [extra|];
      [|reflexivity].
    cbn [bind]. now rewrite rev_app_distr.
  - apply Nat.ltb_ge in L. now rewrite skipn_all2 by exact L.
Qed.

Lemma kept_fits (reversed : list BaseMessage) (idx : nat) :
  LangChain.findFit B tokenCounter reversed (length reversed) = Some idx ->
  rev (firstn idx reversed) = [] \/ fits B (rev (rev (firstn idx reversed))).
Proof.
  intros F. rewrite rev_involutive.
  destruct (findFit_fits _ _ _ _ F) as [->|H]; [now left | now right].
Qed.



Lemma trimMessages_shape (c r : list BaseMessage) :
  trimMessages P B c = Some r ->
  exists older kept,
    upToLastHuman c = older ++ kept
    /\ (kept = [] \/ fits B (rev kept))
    /\ trimMessages P B c = assemble P B older kept.
Proof.
  intros H.
  destruct (LangChain.findFit B tokenCounter (LangChain.dropUntil human (rev c))
              (length (LangChain.dropUntil human (rev c)))) as [idx|] eqn:F.
  - destruct (trimMessages_at c idx F) as (E1 & E2).
    eexists _, _. split; [exact E1|]. split; [|exact E2].
    exact (kept_fits _ _ F).
  - unfold trimMessages, LangChain.lastMaxTokens, LangChain.firstMaxTokens in H.
    now rewrite F in H.
Qed.

(** When the conversation ends with a human message and the counter
    accepts it newest first, the trimmer answers the conversation. *)
Lemma trimMessages_all (c : list BaseMessage) :
  upToLastHuman c = c -> c = [] \/ fits B (rev c) ->
  trimMessages P B c = Some c.
Proof.
  unfold upToLastHuman. intros U H.
  apply (f_equal (@rev _)) in U. rewrite rev_involutive in U.
  unfold trimMessages, LangChain.lastMaxTokens. rewrite U.
  rewrite firstMaxTokens_all.
  - cbn [bind]. now rewrite rev_involutive.
  - destruct H as [->|H]; [now left | now right].
Qed.

End TrimShape.


Lemma answer_fits (P : PartialStep) (B : Z) (c r : list BaseMessage) :
  addsOnlyWhatFits P ->
  trimMessages P B c = Some r ->
  r = [] \/ fits B (rev r).
Proof.
  intros A H.
  destruct (trimMessages_shape P B c r H) as (older & kept & _ & K & E).
  rewrite H in E. unfold assemble in E.
  destruct older as [|o older'].
  - injection E as ->. exact K.
  - destruct (P B (rev kept) (rev (o :: older'))) as [extra|] eqn:S; [|discriminate].
    cbn [bind] in E. injection E as ->.
    destruct (A _ _ _ _ S) as [->|F].
    + exact K.
    + right. now rewrite rev_app_distr, rev_involutive.
Qed.



(** C3, as stated, fails: a window that starts with a reply and fits
    the budget is kept as it is, and its first message is the reply. *)
Lemma trimmer_keeps_leading_reply :
  (forall P, trimmer P replyFirst = Some replyFirst)
  /\ option_map getType (hd_error replyFirst) = Some ai.
Proof. repeat split. Qed.

Lemma answer_ends_on_human (P : PartialStep) (B : Z) (c r : list BaseMessage) :
  keepsType P ->
  trimMessages P B c = Some r ->
  r <> [] ->
  exists init m, r = init ++ [m] /\ getType m = human.
Proof.
  intros K H Hne.
  destruct (trimMessages_shape P B c r H) as (older & kept & U & _ & E).
  rewrite H in E. unfold assemble in E.
  destruct kept as [|k kept'] eqn:Ek.
  - (* nothing is kept whole *)
    destruct older as [|o older'] eqn:Eo; [now injection E as ->|].
    destruct (P B (rev []) (rev (o :: older'))) as [extra|] eqn:S; [|discriminate].
    cbn [bind] in E. injection E as ->. rewrite app_nil_r in *.
    destruct (exists_last (l := o :: older')) as (init & m & Em); [discriminate|].
    rewrite Em in U, S. rewrite rev_app_distr in S. simpl in S.
    apply K in S.
    destruct extra as [|x xs]; [now destruct Hne|].
    exists (rev xs), x. split; [reflexivity|].
    apply Forall_inv in S. rewrite S.
    exact (upToLastHuman_last c init m U).
  - (* the newest kept message is the last human message *)
    rewrite <- Ek in *.
    destruct (exists_last (l := kept)) as (init & m & Em); [subst; discriminate|].
    assert (T : getType m = human).
    { rewrite Em, app_assoc in U. exact (upToLastHuman_last c _ m U). }
    destruct older as [|o older'].
    + injection E as ->. now exists init, m.
    + destruct (P B (rev kept) (rev (o :: older'))) as [extra|]; [|discriminate].
      cbn [bind] in E. injection E as ->.
      exists (rev extra ++ init), m. split; [|exact T].
      now rewrite Em, app_assoc.
Qed.

(** An answer of the trimmer that the counter accepts newest first is
    left as it is by the trimmer. *)
Lemma accepted_answer_is_stable (P : PartialStep) (B : Z) (c r : list BaseMessage) :
  keepsType P ->
  trimMessages P B c = Some r ->
  r = [] \/ fits B (rev r) ->
  trimMessages P B r = Some r.
Proof.
  intros K H F. apply trimMessages_all; [|exact F].
  destruct r as [|x xs] eqn:Er; [reflexivity|]. rewrite <- Er in *.
  destruct (answer_ends_on_human P B c r K H) as (init & m & E & T);
    [subst; discriminate|].
  unfold upToLastHuman. rewrite dropUntil_fixed; [apply rev_involutive|].
  rewrite E, rev_app_distr. exact T.
Qed.

(** Without partial inclusion the trimmer is idempotent. *)
Lemma whole_window_is_stable (B : Z) (c r : list BaseMessage) :
  trimMessages noPartial B c = Some r ->
  trimMessages noPartial B r = Some r.
Proof.
  intros H.
  assert (K : keepsType noPartial)
    by (intros ? ? ? ? ? [= <-]; constructor).
  apply (accepted_answer_is_stable noPartial B c r K H).
  destruct (trimMessages_shape noPartial B c r H) as (older & kept & _ & F & E).
  rewrite H in E. unfold assemble, noPartial in E.
  destruct older; cbn [bind rev app] in E; injection E as ->; exact F.
Qed.

(** With a partial-inclusion step that keeps the class of the message it
    cuts and adds only what the counter accepts, trimming an answer of
    the trimmer again gives that answer. *)
Lemma answer_is_stable_under_fitting_step (P : PartialStep) (B : Z)
  (c r : list BaseMessage) :
  keepsType P ->
  addsOnlyWhatFits P ->
  trimMessages P B c = Some r ->
  trimMessages P B r = Some r.
Proof.
  intros K A H.
  exact (accepted_answer_is_stable P B c r K H (answer_fits P B c r A H)).
Qed.

(** C3, amended. Whenever the partial-inclusion step keeps the class of
    the message it cuts, a non-empty answer of the trimmer ends with a
    human message: the trimmer drops the messages after the last human
    message, none of which is human, before it applies the budget, and
    puts no condition on the first message it keeps. *)
Theorem trimMessages_ends_on_human :
  forall (P : PartialStep) (B : Z) (c r : list BaseMessage),
    keepsType P ->
    trimMessages P B c = Some r ->
    r <> [] ->
    (exists init m, r = init ++ [m] /\ getType m = human)
    /\ (exists dropped,
          c = upToLastHuman c ++ dropped
          /\ Forall (fun m => MessageType_eqb (getType m) human = false) dropped).
Proof.
  intros P B c r K H Hne. split; [|apply upToLastHuman_split].
  exact (answer_ends_on_human P B c r K H Hne).
Qed.

Lemma trimMessages_ends_on_human_witness :
  (exists init m,
      [HumanMessage twentyWords] = init ++ [m] /\ getType m = human)
  /\ (exists dropped,
        reportedExchange = upToLastHuman reportedExchange ++ dropped
        /\ Forall (fun m => MessageType_eqb (getType m) human = false) dropped).
Proof.
  apply (trimMessages_ends_on_human noPartial 100 reportedExchange
           [HumanMessage twentyWords]);
    [intros ? ? ? ? ? [= <-]; constructor | reflexivity | discriminate].
Defined.

(** ** Session controller *)

Section ControllerFacts.

Variable W : Platform.

Lemma dispatch_reset (line : string) :
  Js.trim line = ".reset" -> dispatch (Some line) = Reset.
Proof. intros H. unfold dispatch. now rewrite H. Qed.

Lemma loadFails_throws (file : option string) :
  loadFails W file -> exists message, loadBotDefinition W file = Throw message.
Proof.
  unfold loadBotDefinition.
  intros [(m & R)|[(text & m & R & J)|(text & v & m & R & J & S)]];
    exists m; rewrite R; cbn [andThen]; [reflexivity | |];
    rewrite J; cbn [andThen]; [reflexivity | exact S].
Qed.

End ControllerFacts.

(** C9. In both variants, a line that is [.reset] once trimmed leaves
    the session with an empty conversation and with the bot definition,
    the compiled bot (and the agent) it had, whatever the conversation
    was, and prompts for the next line. *)
Theorem reset_empties_conversation_only :
  forall (W : Platform) (line : string),
    Js.trim line = ".reset" ->
    (forall s : Plain.Session,
        let '(s', events) := Plain.onLine W s (Some line) in
        Plain.conversation s' = []
        /\ Plain.bot s' = Plain.bot s
        /\ Plain.compiledBot s' = Plain.compiledBot s
        /\ events = [TermPrompt])
    /\ (forall s : AgentMode.Session,
          let '(s', events) := AgentMode.onLine W s (Some line) in
          AgentMode.conversation s' = []
          /\ AgentMode.bot s' = AgentMode.bot s
          /\ AgentMode.compiledBot s' = AgentMode.compiledBot s
          /\ AgentMode.agent s' = AgentMode.agent s
          /\ events = [TermPrompt]).
Proof.
  intros W line H. split; intros s.
  - unfold Plain.onLine. rewrite (dispatch_reset line H). now repeat split.
  - unfold AgentMode.onLine. rewrite (dispatch_reset line H). now repeat split.
Qed.

Lemma reset_empties_conversation_only_witness :
  (forall s : Plain.Session,
      let '(s', events) := Plain.onLine offline s (Some "  .reset ") in
      Plain.conversation s' = []
      /\ Plain.bot s' = Plain.bot s
      /\ Plain.compiledBot s' = Plain.compiledBot s
      /\ events = [TermPrompt])
  /\ (forall s : AgentMode.Session,
        let '(s', events) := AgentMode.onLine offline s (Some "  .reset ") in
        AgentMode.conversation s' = []
        /\ AgentMode.bot s' = AgentMode.bot s
        /\ AgentMode.compiledBot s' = AgentMode.compiledBot s
        /\ AgentMode.agent s' = AgentMode.agent s
        /\ events = [TermPrompt]).
Proof.
  apply (reset_empties_conversation_only offline "  .reset ").
  reflexivity.
Defined.

(** C4. In both variants, when a line is taken as [.load] and the load
    fails (the file cannot be read, its text is not JSON, or the value is
    not a bot definition), the handler writes the error to the console,
    prompts for the next line, and leaves the session as it was: bot
    definition, compiled bot, agent and conversation. *)
Theorem failed_load_leaves_session :
  forall (W : Platform) (line : string) (file : option string),
    dispatch (Some line) = Load file ->
    loadFails W file ->
    (forall s : Plain.Session,
        exists message,
          Plain.onLine W s (Some line) = (s, [loadError message; TermPrompt]))
    /\ (forall s : AgentMode.Session,
          exists message,
            AgentMode.onLine W s (Some line) = (s, [loadError message; TermPrompt])).
Proof.
  intros W line file D F.
  destruct (loadFails_throws W file F) as (m & L).
  split; intros s; exists m.
  - unfold Plain.onLine. now rewrite D, L.
  - unfold AgentMode.onLine. now rewrite D, L.
Qed.

Lemma failed_load_leaves_session_witness :
  (forall s : Plain.Session,
      exists message,
        Plain.onLine offline s (Some ".load missing.json")
        = (s, [loadError message; TermPrompt]))
  /\ (forall s : AgentMode.Session,
        exists message,
          AgentMode.onLine offline s (Some ".load missing.json")
          = (s, [loadError message; TermPrompt])).
Proof.
  apply (failed_load_leaves_session offline ".load missing.json" (Some "missing.json")).
  - reflexivity.
  - left. exists "ENOENT: no such file or directory". reflexivity.
Defined.

(** C7, as stated, fails in the agent variant: on the first turn the
    list handed to the agent holds the human message alone; the system
    message is not in it, it is the prompt the agent was created with. *)
Lemma agent_first_turn_sends_human_message_alone :
  snd (AgentMode.onLine offline (agentSession offline qBot) (Some "hello"))
  = [AgentInvoke {| systemPrompt := "S" |} [HumanMessage "Q: hello"];
     StdoutWrite blankLine; TermPrompt].
Proof. reflexivity. Qed.

(** C7, amended. On a chat line with an empty conversation, when the
    compiled initial prompt template renders the line to [prompt]: the
    human message [prompt] becomes the first message of the conversation,
    followed only by what the call answers; the plain variant sends
    [system, thatHumanMessage] to the model, and the agent variant sends
    [thatHumanMessage] alone to the agent it holds. With the definition
    [{systemMessage: "S", initialPromptTemplate: "Q: {{input}}"}] and the
    first input [hello], the stored human message is [Q: hello] in both
    variants, on every platform. *)
Theorem first_turn_renders_initial_prompt :
  forall (W : Platform) (line prompt : string),
    dispatch (Some line) = Chat line ->
    (forall s : Plain.Session,
        Plain.conversation s = [] ->
        initialPromptTemplate (Plain.compiledBot s) line = Some prompt ->
        let sent := [SystemMessage (systemMessage (Plain.compiledBot s));
                     HumanMessage prompt] in
        exists rest,
          snd (Plain.onLine W s (Some line)) = LlmInvoke sent :: rest
          /\ Plain.conversation (fst (Plain.onLine W s (Some line)))
             = HumanMessage prompt
               :: match llm_invoke W sent with
                  | Some res => [res]
                  | None => []
                  end)
    /\ (forall s : AgentMode.Session,
          AgentMode.conversation s = [] ->
          initialPromptTemplate (AgentMode.compiledBot s) line = Some prompt ->
          let sent := [HumanMessage prompt] in
          exists rest,
            snd (AgentMode.onLine W s (Some line))
            = AgentInvoke (AgentMode.agent s) sent :: rest
            /\ AgentMode.conversation (fst (AgentMode.onLine W s (Some line)))
               = HumanMessage prompt
                 :: match agent_invoke W (AgentMode.agent s) sent with
                    | Some res => skipn 1 res
                    | None => []
                    end)
    /\ compile W "Q: {{input}}" "hello" = Some "Q: hello"
    /\ hd_error (Plain.conversation
                   (fst (Plain.onLine W (plainSession W qBot) (Some "hello"))))
       = Some (HumanMessage "Q: hello")
    /\ hd_error (AgentMode.conversation
                   (fst (AgentMode.onLine W (agentSession W qBot) (Some "hello"))))
       = Some (HumanMessage "Q: hello").
Proof.
  intros W.
  assert (A : forall line prompt (s : Plain.Session),
             dispatch (Some line) = Chat line ->
             Plain.conversation s = [] ->
             initialPromptTemplate (Plain.compiledBot s) line = Some prompt ->
             let sent := [SystemMessage (systemMessage (Plain.compiledBot s));
                          HumanMessage prompt] in
             exists rest,
               snd (Plain.onLine W s (Some line)) = LlmInvoke sent :: rest
               /\ Plain.conversation (fst (Plain.onLine W s (Some line)))
                  = HumanMessage prompt
                    :: match llm_invoke W sent with
                       | Some res => [res]
                       | None => []
                       end).
  { intros line prompt s D C T sent. unfold Plain.onLine, Plain.chat.
    rewrite D, C, T. unfold Plain.complete.
    cbn [Plain.conversation Plain.withConversation firstn app].
    fold sent. destruct (llm_invoke W sent); eexists; split; reflexivity. }
  assert (G : forall line prompt (s : AgentMode.Session),
             dispatch (Some line) = Chat line ->
             AgentMode.conversation s = [] ->
             initialPromptTemplate (AgentMode.compiledBot s) line = Some prompt ->
             let sent := [HumanMessage prompt] in
             exists rest,
               snd (AgentMode.onLine W s (Some line))
               = AgentInvoke (AgentMode.agent s) sent :: rest
               /\ AgentMode.conversation (fst (AgentMode.onLine W s (Some line)))
                  = HumanMessage prompt
                    :: match agent_invoke W (AgentMode.agent s) sent with
                       | Some res => skipn 1 res
                       | None => []
                       end).
  { intros line prompt s D C T sent. unfold AgentMode.onLine, AgentMode.chat.
    rewrite D, C, T. unfold AgentMode.complete.
    cbn [AgentMode.conversation AgentMode.withConversation AgentMode.agent firstn app].
    fold sent. destruct (agent_invoke W (AgentMode.agent s) sent);
      eexists; split; reflexivity. }
  intros line prompt D.
  split; [intros s; now apply A|].
  split; [intros s; now apply G|].
  split; [reflexivity|].
  split.
  - destruct (A "hello" "Q: hello" (plainSession W qBot)) as (rest & _ & C);
      [reflexivity .. |].
    now rewrite C.
  - destruct (G "hello" "Q: hello" (agentSession W qBot)) as (rest & _ & C);
      [reflexivity .. |].
    now rewrite C.
Qed.

Lemma first_turn_renders_initial_prompt_witness :
  let sent := [SystemMessage "S"; HumanMessage "Q: hello"] in
  exists rest,
    snd (Plain.onLine offline (plainSession offline qBot) (Some "hello"))
    = LlmInvoke sent :: rest
    /\ Plain.conversation
         (fst (Plain.onLine offline (plainSession offline qBot) (Some "hello")))
       = HumanMessage "Q: hello"
         :: match llm_invoke offline sent with
            | Some res => [res]
            | None => []
            end.
Proof.
  apply (proj1 (first_turn_renders_initial_prompt offline "hello" "Q: hello" eq_refl)
           (plainSession offline qBot));
    reflexivity.
Defined.

(** ** Command dispatch *)

Section DispatchFacts.

Lemma trimEnd_split (x : string) :
  exists r, x = (Js.trimEnd x ++ r)%string /\ Js.trimStart r = EmptyString.
Proof.
  induction x as [|c x (r & E & R)]; [now exists EmptyString|].
  cbn [Js.trimEnd]. destruct (Js.trimEnd x) as [|d t] eqn:T.
  - cbn [append] in E. subst r.
    destruct (Js.isWhiteSpace c) eqn:C.
    + exists (String c x). split; [reflexivity|]. cbn [Js.trimStart]. now rewrite C.
    + exists x. split; [reflexivity | exact R].
  - exists r. split; [|exact R]. cbn [append]. f_equal. exact E.
Qed.

Lemma trimStart_blank_gap (r : string) :
  Js.trimStart r = EmptyString -> leadingGap r = 1.
Proof.
  destruct r as [|c r]; [reflexivity|].
  cbn [Js.trimStart leadingGap]. now destruct (Js.isWhiteSpace c).
Qed.

Lemma splitWs_gap (s : string) :
  leadingGap s = 1 -> exists ps, Js.splitWs s = EmptyString :: ps.
Proof.
  induction s as [|c s IH]; [now exists []|].
  cbn [leadingGap Js.splitWs]. destruct (Js.isWhiteSpace c); [|discriminate].
  intros _. destruct s as [|c' s']; [now eexists|].
  destruct (Js.isWhiteSpace c') eqn:C'; [|now eexists].
  apply IH. cbn [leadingGap]. now rewrite C'.
Qed.

Lemma splitWs_word (w r : string) (ps : list string) :
  hasNoWhiteSpace w = true ->
  Js.splitWs r = EmptyString :: ps ->
  Js.splitWs (w ++ r) = w :: ps.
Proof.
  intros N R. induction w as [|c w IH]; [exact R|].
  cbn [hasNoWhiteSpace] in N. apply andb_prop in N. destruct N as (C & N).
  apply negb_true_iff in C.
  cbn [append Js.splitWs]. rewrite C, (IH N). reflexivity.
Qed.

Lemma firstToken_ws (c : ascii) (s : string) :
  Js.isWhiteSpace c = true -> firstToken (String c s) = firstToken s.
Proof.
  intros C. unfold firstToken. cbn [Js.splitWs]. rewrite C.
  destruct s as [|c' s']; [reflexivity|].
  now destruct (Js.isWhiteSpace c').
Qed.

Lemma firstToken_trimStart (s : string) :
  firstToken (Js.trimStart s) = firstToken s.
Proof.
  induction s as [|c s IH]; [reflexivity|].
  cbn [Js.trimStart]. destruct (Js.isWhiteSpace c) eqn:C; [|reflexivity].
  now rewrite firstToken_ws.
Qed.

(** A line that starts, after its leading white space, with a word
    followed by white space or by nothing has that word as its first
    token. *)
Lemma firstToken_word (line w tail : string) :
  hasNoWhiteSpace w = true -> w <> EmptyString ->
  Js.trimStart line = (w ++ tail)%string -> leadingGap tail = 1 ->
  firstToken line = w.
Proof.
  intros N Hw E G. rewrite <- firstToken_trimStart, E.
  destruct (splitWs_gap tail G) as (ps & S).
  unfold firstToken. rewrite (splitWs_word w tail ps N S).
  destruct w; [congruence | reflexivity].
Qed.

Lemma firstToken_trimmed (line w : string) :
  hasNoWhiteSpace w = true -> w <> EmptyString ->
  Js.trim line = w -> firstToken line = w.
Proof.
  intros N Hw T. unfold Js.trim in T.
  destruct (trimEnd_split (Js.trimStart line)) as (r & E & R).
  rewrite T in E.
  exact (firstToken_word line w r N Hw E (trimStart_blank_gap r R)).
Qed.

Lemma split_cons (sep : ascii) (t : string) :
  exists p ps, Js.split sep t = p :: ps.
Proof.
  induction t as [|c t (p & ps & E)]; [now eexists _, _|].
  cbn [Js.split]. destruct (Ascii.eqb c sep); [now eexists _, _|].
  rewrite E. now eexists _, _.
Qed.

Lemma split_head (sep : ascii) (t p : string) :
  nth_error (Js.split sep t) 0 = Some p ->
  t = p \/ exists rest, t = (p ++ String sep rest)%string.
Proof.
  revert p. induction t as [|c t IH]; intros p.
  - intros [= <-]. now left.
  - cbn [Js.split]. destruct (Ascii.eqb c sep) eqn:C.
    + apply Ascii.eqb_eq in C. subst c. intros [= <-]. right. now exists t.
    + destruct (split_cons sep t) as (q & qs & E). rewrite E.
      intros [= <-]. destruct (IH q) as [->|(rest & ->)];
        [now rewrite E | now left | right; now exists rest].
Qed.

Lemma startsWith_split (prefix s : string) :
  startsWith prefix s = true -> exists rest, s = (prefix ++ rest)%string.
Proof.
  revert s. induction prefix as [|a prefix IH]; intros s; [now exists s|].
  destruct s as [|b s]; [discriminate|].
  cbn [startsWith]. intros H. apply andb_prop in H. destruct H as (A & H).
  apply Ascii.eqb_eq in A. subst b.
  destruct (IH s H) as (rest & ->). now exists rest.
Qed.

End DispatchFacts.

Section DispatchCases.

Variable line : string.

Lemma dispatch_line :
  dispatch (Some line)
  = if String.eqb (Js.trim line) ".exit" then Exit
    else if String.eqb (Js.trim line) ".reset" then Reset
    else match nth_error (Js.split " "%char (Js.trim line)) 0 with
         | Some first =>
             if String.eqb first ".load"
             then Load (nth_error (Js.split " "%char (Js.trim line)) 1)
             else Chat line
         | None => Chat line
         end.
Proof. reflexivity. Qed.

Lemma dispatch_cases :
  (Js.trim line = ".exit" /\ dispatch (Some line) = Exit)
  \/ (Js.trim line = ".reset" /\ dispatch (Some line) = Reset)
  \/ (Js.trim line <> ".exit" /\ Js.trim line <> ".reset"
      /\ nth_error (Js.split " "%char (Js.trim line)) 0 = Some ".load"
      /\ dispatch (Some line)
         = Load (nth_error (Js.split " "%char (Js.trim line)) 1))
  \/ (Js.trim line <> ".exit" /\ Js.trim line <> ".reset"
      /\ nth_error (Js.split " "%char (Js.trim line)) 0 <> Some ".load"
      /\ dispatch (Some line) = Chat line).
Proof.
  rewrite dispatch_line.
  destruct (String.eqb (Js.trim line) ".exit") eqn:E1.
  { apply String.eqb_eq in E1. now left. }
  destruct (String.eqb (Js.trim line) ".reset") eqn:E2.
  { apply String.eqb_eq in E2. right. now left. }
  pose proof (proj1 (String.eqb_neq _ _) E1) as N1.
  pose proof (proj1 (String.eqb_neq _ _) E2) as N2.
  right. right.
  destruct (nth_error (Js.split " "%char (Js.trim line)) 0) as [first|] eqn:H.
  - destruct (String.eqb first ".load") eqn:E3.
    + apply String.eqb_eq in E3. subst first. now left.
    + right. repeat split; auto. intros [= ->]. discriminate.
  - right. repeat split; auto. discriminate.
Qed.

End DispatchCases.

Lemma load_head (t : string) :
  nth_error (Js.split " "%char t) 0 = Some ".load"
  <-> t = ".load" \/ startsWith ".load " t = true.
Proof.
  split.
  - intros H. destruct (split_head _ _ _ H) as [->|(rest & ->)];
      [now left | now right].
  - intros [->|H]; [reflexivity|].
    destruct (startsWith_split _ _ H) as (rest & ->). reflexivity.
Qed.

(** C8, as stated, fails: the first whitespace-delimited token of
    [.exit now] is [.exit], and that of [.load], a tab, [bot.json] is
    [.load], yet the handler takes both lines as chat messages. *)
Lemma first_token_does_not_decide :
  commandByFirstToken ".exit now" = IsExit
  /\ dispatch (Some ".exit now") = Chat ".exit now"
  /\ commandByFirstToken ".reset please" = IsReset
  /\ dispatch (Some ".reset please") = Chat ".reset please"
  /\ commandByFirstToken tabbedLoad = IsLoad
  /\ dispatch (Some tabbedLoad) = Chat tabbedLoad.
Proof. repeat split. Qed.

(** C8, amended. For every input line: it is [.exit], respectively
    [.reset], exactly when the whole line, trimmed of the white space
    around it, is that word; it is [.load] exactly when the trimmed line
    is [.load] or starts with [.load] and a space, the file name being
    what stands between that space and the next one; every other line is
    a chat message and is passed on as it was typed. The comparison is
    case-sensitive, and a line taken as a command has that command as its
    first whitespace-delimited token. *)
Theorem dispatch_recognises_trimmed_commands :
  forall line : string,
    (dispatch (Some line) = Exit <-> Js.trim line = ".exit")
    /\ (dispatch (Some line) = Reset <-> Js.trim line = ".reset")
    /\ (commandName (dispatch (Some line)) = IsLoad
        <-> Js.trim line = ".load" \/ startsWith ".load " (Js.trim line) = true)
    /\ (forall file,
          dispatch (Some line) = Load file ->
          file = nth_error (Js.split " "%char (Js.trim line)) 1)
    /\ (forall input, dispatch (Some line) = Chat input -> input = line)
    /\ (commandName (dispatch (Some line)) <> IsChat ->
        commandByFirstToken line = commandName (dispatch (Some line)))
    /\ dispatch (Some ".EXIT") = Chat ".EXIT"
    /\ dispatch (Some ".Load bot.json") = Chat ".Load bot.json".
Proof.
  intros line.
  destruct (dispatch_cases line)
    as [(T & D)|[(T & D)|[(N1 & N2 & H & D)|(N1 & N2 & H & D)]]];
    rewrite D; cbn [commandName].
  - (* .exit *)
    repeat split; try discriminate; try tauto; try congruence.
    + rewrite T. intros [H|H]; discriminate.
    + intros _. unfold commandByFirstToken.
      now rewrite (firstToken_trimmed line ".exit" eq_refl ltac:(discriminate) T).
  - (* .reset *)
    repeat split; try discriminate; try tauto; try congruence.
    + rewrite T. intros [H|H]; discriminate.
    + intros _. unfold commandByFirstToken.
      now rewrite (firstToken_trimmed line ".reset" eq_refl ltac:(discriminate) T).
  - (* .load *)
    pose proof (proj1 (load_head _) H) as L.
    repeat split; try discriminate; try tauto; try congruence.
    intros _. unfold commandByFirstToken.
    assert (F : firstToken line = ".load").
    { destruct (trimEnd_split (Js.trimStart line)) as (r & E & R).
      fold (Js.trim line) in E. apply trimStart_blank_gap in R.
      destruct (split_head _ _ _ H) as [T|(rest & T)]; rewrite T in E.
      - exact (firstToken_word line ".load" r eq_refl ltac:(discriminate) E R).
      - apply (firstToken_word line ".load" (String " " rest ++ r) eq_refl
                 ltac:(discriminate)); [|reflexivity].
        rewrite E. reflexivity. }
    now rewrite F.
  - (* a chat message *)
    repeat split; try discriminate; try tauto; try congruence.
    intros L. destruct H. now apply load_head.
Qed.

Lemma dispatch_recognises_trimmed_commands_witness :
  Some "bot.json" = nth_error (Js.split " "%char (Js.trim " .load bot.json x ")) 1
  /\ commandByFirstToken " .load bot.json x "
     = commandName (dispatch (Some " .load bot.json x ")).
Proof.
  split.
  - apply (proj1 (proj2 (proj2 (proj2
             (dispatch_recognises_trimmed_commands " .load bot.json x "))))).
    reflexivity.
  - apply (proj1 (proj2 (proj2 (proj2 (proj2 (proj2
             (dispatch_recognises_trimmed_commands " .load bot.json x "))))))).
    discriminate.
Defined.

(** * Further properties of the code *)

(** ** Content normaliser *)

Lemma collect_app (a b : list ContentBlock) :
  collect (a ++ b) = collect a ++ collect b.
Proof.
  induction a as [|c a IH]; [reflexivity|].
  simpl. destruct (supported c); simpl; now rewrite IH.
Qed.

Lemma collect_filter (blocks : list ContentBlock) :
  collect (filter supported blocks) = collect blocks.
Proof.
  induction blocks as [|c blocks IH]; [reflexivity|].
  simpl. destruct (supported c) eqn:S; [|exact IH].
  simpl. rewrite S. now rewrite IH.
Qed.

Lemma serialize_undefined (indent : string) (v : JsValue) :
  JSON.serialize indent v = None <-> v = JUndefined.
Proof. destruct v; simpl; split; congruence. Qed.

(** X1. The normaliser and the estimator do not see the blocks whose
    type is neither [text] nor [image_url]: dropping them from the list
    changes neither result; each dropped block is reported by one
    warning, and a list without such blocks gives no warning. *)
Theorem contentToString_skips_unsupported :
  forall blocks : list ContentBlock,
    contentToString (Blocks blocks)
    = contentToString (Blocks (filter supported blocks))
    /\ estimateTokens (Blocks blocks)
       = estimateTokens (Blocks (filter supported blocks))
    /\ length (unsupportedWarnings blocks) + length (filter supported blocks)
       = length blocks
    /\ unsupportedWarnings (filter supported blocks) = [].
Proof.
  intros blocks.
  assert (E : contentToString (Blocks blocks)
              = contentToString (Blocks (filter supported blocks)))
    by (unfold contentToString; now rewrite collect_filter).
  split; [exact E|]. split; [unfold estimateTokens; now rewrite E|].
  clear E. split.
  - induction blocks as [|c blocks IH]; [reflexivity|].
    cbn [unsupportedWarnings filter]. destruct (supported c); cbn [length]; lia.
  - induction blocks as [|c blocks IH]; [reflexivity|].
    cbn [filter]. destruct (supported c) eqn:S; [|exact IH].
    cbn [unsupportedWarnings]. now rewrite S.
Qed.

(** X2. The estimator throws in exactly two cases: the content is a
    block list with no supported block, or a block list whose only
    supported block has no value under the name of its type. Every
    string, and every other block list, gets an estimate. *)
Theorem estimateTokens_throws_exactly :
  forall c : MessageContent,
    estimateTokens c = None
    <-> exists blocks,
          c = Blocks blocks
          /\ (collect blocks = [] \/ collect blocks = [JUndefined]).
Proof.
  intros c. rewrite estimateTokens_pieces.
  assert (N : forall o : option string,
             option_map (fun s => length (Js.splitWs s)) o = None <-> o = None)
    by (intros [s|]; simpl; split; congruence).
  rewrite N. destruct c as [s|blocks].
  - simpl. split; [discriminate | intros (b & E & _); discriminate].
  - unfold contentToString.
    destruct (collect blocks) as [|v [|w rest]] eqn:C.
    + simpl. split; [|reflexivity]. intros _. exists blocks. now rewrite C; auto.
    + cbn [length Nat.ltb Nat.leb nth].
      split.
      * intros H. exists blocks. split; [reflexivity|]. right. rewrite C.
        destruct v; try discriminate. reflexivity.
      * intros (b & [= <-] & [E|E]); rewrite C in E; [discriminate|].
        injection E as ->. reflexivity.
    + cbn [length Nat.ltb Nat.leb]. unfold JSON.stringify. cbn [JSON.serialize].
      split; [discriminate|].
      intros (b & [= <-] & [E|E]); rewrite C in E; discriminate.
Qed.

(** X3. A block list whose only supported block is a text block
    normalises to the text of that block, and is estimated as that text
    is, whatever unsupported blocks stand around it. *)
Theorem single_text_block_is_its_text :
  forall (before after : list ContentBlock) (text : string),
    forallb (fun c => negb (supported c)) before = true ->
    forallb (fun c => negb (supported c)) after = true ->
    contentToString (Blocks (before ++ textBlock text :: after)) = Some text
    /\ estimateTokens (Blocks (before ++ textBlock text :: after))
       = estimateTokens (Str text).
Proof.
  intros before after text Hb Ha.
  assert (E : contentToString (Blocks (before ++ textBlock text :: after))
              = Some text).
  { unfold contentToString.
    rewrite collect_app, (collect_unsupported _ Hb).
    change (collect (textBlock text :: after)) with (JStr text :: collect after).
    now rewrite (collect_unsupported _ Ha). }
  split; [exact E|]. unfold estimateTokens. now rewrite E.
Qed.

Lemma single_text_block_is_its_text_witness :
  contentToString
    (Blocks ([{| type := "tool_use"; props := [] |}] ++ textBlock "2 + 2 is 4" :: []))
  = Some "2 + 2 is 4"
  /\ estimateTokens
       (Blocks ([{| type := "tool_use"; props := [] |}] ++ textBlock "2 + 2 is 4" :: []))
     = estimateTokens (Str "2 + 2 is 4").
Proof.
  apply (single_text_block_is_its_text
           [{| type := "tool_use"; props := [] |}] [] "2 + 2 is 4");
    reflexivity.
Defined.

(** ** Token counter *)

Lemma countMessage_acc_mono (t t' u : Z) (m : BaseMessage) :
  (t <= t')%Z -> countMessage t m = Some u ->
  exists u', countMessage t' m = Some u' /\ (u <= u')%Z.
Proof.
  intros L. unfold countMessage.
  destruct (response_metadata m) as [| |n].
  1,2: destruct (estimateTokens (content m)) as [e|]; [|discriminate];
       cbn [bind]; intros [= <-]; eexists; split; [reflexivity | lia].
  intros [= <-]. eexists. split; [reflexivity|].
  destruct (n >? t)%Z eqn:A, (n >? t')%Z eqn:A'; lia.
Qed.

Lemma reduce_acc_mono (msgs : list BaseMessage) :
  forall t t' a,
    (t <= t')%Z -> reduce t msgs = Some a ->
    exists a', reduce t' msgs = Some a' /\ (a <= a')%Z.
Proof.
  induction msgs as [|m msgs IH]; intros t t' a L.
  - intros [= <-]. now exists t'.
  - cbn [reduce]. destruct (countMessage t m) as [u|] eqn:E; [|discriminate].
    cbn [bind]. intros H.
    destruct (countMessage_acc_mono t t' u m L E) as (u' & -> & Lu).
    cbn [bind]. exact (IH u u' a Lu H).
Qed.

Lemma reduce_defined_anywhere (msgs : list BaseMessage) :
  forall t t' a, reduce t msgs = Some a -> exists a', reduce t' msgs = Some a'.
Proof.
  induction msgs as [|m msgs IH]; intros t t' a; [now exists t'|].
  cbn [reduce]. unfold countMessage.
  destruct (response_metadata m) as [| |n].
  1,2: destruct (estimateTokens (content m)) as [e|]; [|discriminate];
       cbn [bind]; apply IH.
  cbn [bind]. apply IH.
Qed.

Lemma reduce_estimated (msgs : list BaseMessage) :
  forall t a,
    reduce t msgs = Some a ->
    (t + Z.of_nat (length (filter estimated msgs)) <= a)%Z.
Proof.
  induction msgs as [|m msgs IH]; intros t a.
  - intros [= <-]. simpl. lia.
  - cbn [reduce filter]. unfold countMessage.
    destruct (response_metadata m) as [| |n] eqn:U.
    1,2: replace (estimated m) with true by (unfold estimated; now rewrite U);
         destruct (estimateTokens (content m)) as [e|] eqn:E; [|discriminate];
         cbn [bind]; intros H; apply IH in H; apply estimateTokens_pos in E;
         cbn [length]; lia.
    replace (estimated m) with false by (unfold estimated; now rewrite U).
    cbn [bind]. intros H. apply IH in H.
    destruct (n >? t)%Z eqn:A; lia.
Qed.

(** X4. Every message that is counted by estimate adds at least one
    token: the count of a conversation is at least the number of its
    messages without a numeric reported usage; and a conversation whose
    contents are all strings is always counted. *)
Theorem tokenCounter_at_least_estimated_messages :
  forall msgs : list BaseMessage,
    (forall t, tokenCounter msgs = Some t ->
               (Z.of_nat (length (filter estimated msgs)) <= t)%Z)
    /\ (Forall (fun m => exists s, content m = Str s) msgs ->
        exists t, tokenCounter msgs = Some t).
Proof.
  intros msgs. split.
  - intros t H. apply reduce_estimated in H. lia.
  - intros H. apply reduce_countable.
    apply Forall_impl with (2 := H).
    intros m (s & E). unfold countable.
    destruct (response_metadata m); [| |exact I]; rewrite E; discriminate.
Qed.

Lemma tokenCounter_at_least_estimated_messages_witness :
  exists t, tokenCounter [HumanMessage ""; AIMessage "   " NaN] = Some t.
Proof.
  apply (proj2 (tokenCounter_at_least_estimated_messages
                  [HumanMessage ""; AIMessage "   " NaN])).
  repeat constructor; eexists; reflexivity.
Defined.

(** X5. Cutting messages off a conversation, at its start or at its
    end, never makes the counter throw and never raises the count. *)
Theorem tokenCounter_of_part_is_no_more :
  forall (older newer : list BaseMessage) (n : Z),
    tokenCounter (older ++ newer) = Some n ->
    (exists a, tokenCounter older = Some a /\ (a <= n)%Z)
    /\ (exists b, tokenCounter newer = Some b /\ (b <= n)%Z).
Proof.
  intros older newer n. unfold tokenCounter. rewrite reduce_app.
  destruct (reduce 0 older) as [a|] eqn:A; [|discriminate].
  cbn [bind]. intros H. split.
  - exists a. split; [reflexivity | exact (reduce_mono _ _ _ H)].
  - pose proof (reduce_mono _ _ _ A) as La.
    destruct (reduce_defined_anywhere newer a 0%Z n H) as (b & Hb).
    destruct (reduce_acc_mono newer 0%Z a b La Hb) as (n' & Hn' & L).
    exists b. split; [exact Hb | congruence].
Qed.

Lemma tokenCounter_of_part_is_no_more_witness :
  (exists a, tokenCounter [HumanMessage "hi"; AIMessage "x" (Num 990)] = Some a
             /\ (a <= 1010)%Z)
  /\ (exists b, tokenCounter [HumanMessage twentyWords] = Some b /\ (b <= 1010)%Z).
Proof.
  apply (tokenCounter_of_part_is_no_more
           [HumanMessage "hi"; AIMessage "x" (Num 990)] [HumanMessage twentyWords]).
  reflexivity.
Defined.

Lemma reduce_usage (msgs : list BaseMessage) :
  forall t a m u,
    reduce t msgs = Some a -> In m msgs -> response_metadata m = Num u ->
    (u <= a)%Z.
Proof.
  induction msgs as [|x msgs IH]; intros t a m u H I U; [destruct I|].
  cbn [reduce] in H. destruct (countMessage t x) as [v|] eqn:E; [|discriminate].
  cbn [bind] in H. destruct I as [->|I].
  - rewrite (countMessage_Num t u m U) in E. injection E as <-.
    apply reduce_mono in H. lia.
  - exact (IH v a m u H I U).
Qed.

(** X6. The count is never below a usage that a message of the
    conversation reports. *)
Theorem tokenCounter_at_least_reported_usage :
  forall (msgs : list BaseMessage) (n : Z) (m : BaseMessage) (u : Z),
    tokenCounter msgs = Some n ->
    In m msgs ->
    response_metadata m = Num u ->
    (u <= n)%Z.
Proof. intros msgs n m u. apply reduce_usage. Qed.

Lemma tokenCounter_at_least_reported_usage_witness : (990 <= 1010)%Z.
Proof.
  apply (tokenCounter_at_least_reported_usage reportedExchange 1010
           (AIMessage "x" (Num 990)) 990);
    [reflexivity | right; left; reflexivity | reflexivity].
Defined.

Lemma reduce_reported (msgs : list BaseMessage) :
  Forall (fun m => estimated m = false) msgs ->
  forall t,
    exists a, reduce t msgs = Some a
              /\ (a = t \/ exists m, In m msgs /\ response_metadata m = Num a).
Proof.
  induction 1 as [|x msgs Hx _ IH]; intros t; [exists t; now split; [|left]|].
  unfold estimated in Hx. cbn [reduce]. unfold countMessage.
  destruct (response_metadata x) as [| |n] eqn:U; try discriminate.
  cbn [bind]. destruct (IH (if (n >? t)%Z then n else t)) as (a & -> & D).
  exists a. split; [reflexivity|].
  destruct D as [->|(m & I & M)].
  - destruct (n >? t)%Z; [|now left].
    right. exists x. split; [now left | exact U].
  - right. exists m. split; [now right | exact M].
Qed.

(** X7. When every message reports a numeric usage the counter reads no
    content at all: it answers whatever the contents are, and its answer
    is 0 or one of the reported usages. *)
Theorem tokenCounter_of_reported_usages :
  forall msgs : list BaseMessage,
    Forall (fun m => estimated m = false) msgs ->
    exists n,
      tokenCounter msgs = Some n
      /\ (n = 0%Z \/ exists m, In m msgs /\ response_metadata m = Num n).
Proof. intros msgs H. exact (reduce_reported msgs H 0%Z). Qed.

Lemma tokenCounter_of_reported_usages_witness :
  exists n,
    tokenCounter [{| getType := ai; content := Blocks []; response_metadata := Num 7 |}]
    = Some n
    /\ (n = 0%Z
        \/ exists m,
             In m [{| getType := ai; content := Blocks [];
                      response_metadata := Num 7 |}]
             /\ response_metadata m = Num n).
Proof.
  apply (tokenCounter_of_reported_usages
           [{| getType := ai; content := Blocks []; response_metadata := Num 7 |}]).
  repeat constructor.
Defined.

(** ** Loading a bot definition *)

(** X8. [loadBotDefinition] returns a definition exactly when the file
    can be read, its text parses to an object, and the object holds
    strings under [systemMessage] and [initialPromptTemplate]: these two
    strings are the definition, whatever else the object holds. It
    throws exactly in the three ways of [loadFails]. The object written
    from a definition is read back as that definition. *)
Theorem loadBotDefinition_outcomes :
  forall (W : Platform) (file : option string),
    (forall b,
        loadBotDefinition W file = Ok b
        <-> exists text fields,
              readFile W file = Ok text
              /\ JSON_parse W text = Ok (JObj fields)
              /\ getProp "systemMessage" fields = JStr (bot_systemMessage b)
              /\ getProp "initialPromptTemplate" fields
                 = JStr (bot_initialPromptTemplate b))
    /\ ((exists message, loadBotDefinition W file = Throw message)
        <-> loadFails W file)
    /\ (forall b, botDefinitionSchema (botObject b) = Ok b).
Proof.
  intros W file. split; [|split].
  - intros b. unfold loadBotDefinition. split.
    + destruct (readFile W file) as [text|] eqn:R; [|discriminate].
      cbn [andThen].
      destruct (JSON_parse W text) as [v|] eqn:J; [|discriminate].
      cbn [andThen]. unfold botDefinitionSchema.
      destruct v as [| | | | |items|fields]; try discriminate.
      destruct (getProp "systemMessage" fields) eqn:S; try discriminate.
      destruct (getProp "initialPromptTemplate" fields) eqn:T; try discriminate.
      intros [= <-]. now exists text, fields.
    + intros (text & fields & R & J & S & T).
      rewrite R. cbn [andThen]. rewrite J. cbn [andThen].
      unfold botDefinitionSchema. rewrite S, T. now destruct b.
  - split; [|apply loadFails_throws].
    unfold loadBotDefinition, loadFails. intros (m & H).
    destruct (readFile W file) as [text|m1] eqn:R; [|left; now exists m1].
    right. cbn [andThen] in H.
    destruct (JSON_parse W text) as [v|m2] eqn:J; [|left; now exists text, m2].
    right. cbn [andThen] in H. now exists text, v, m.
  - intros [s t]. reflexivity.
Qed.

(** ** Line handler *)

Lemma dispatch_blank (line : string) :
  Js.trim line = EmptyString -> dispatch (Some line) = Chat line.
Proof. intros H. rewrite dispatch_line, H. reflexivity. Qed.

Lemma dispatch_exit (input : option string) :
  input = None \/ (exists line, input = Some line /\ Js.trim line = ".exit") ->
  dispatch input = Exit.
Proof.
  intros [->|(line & -> & H)]; [reflexivity|].
  rewrite dispatch_line, H. reflexivity.
Qed.

(** X9. An empty line, or a line of white space only, is not a command
    and does not close the REPL: it is handled as a chat message, and
    the message is the line as typed. *)
Theorem blank_line_is_a_chat_message :
  forall line : string,
    Js.trim line = EmptyString ->
    dispatch (Some line) = Chat line.
Proof. exact dispatch_blank. Qed.

Lemma blank_line_is_a_chat_message_witness :
  dispatch (Some "   ") = Chat "   ".
Proof. apply (blank_line_is_a_chat_message "   "). reflexivity. Defined.

(** X10. On [.exit], or when there is no line, the handler closes the
    terminal and does nothing else: the session is untouched, no prompt
    is written, nothing is sent; in both variants. *)
Theorem exit_only_closes_the_terminal :
  forall (W : Platform) (input : option string),
    input = None \/ (exists line, input = Some line /\ Js.trim line = ".exit") ->
    (forall s : Plain.Session, Plain.onLine W s input = (s, [TermClose]))
    /\ (forall s : AgentMode.Session,
          AgentMode.onLine W s input = (s, [TermClose])).
Proof.
  intros W input H. apply dispatch_exit in H.
  split; intros s; [unfold Plain.onLine | unfold AgentMode.onLine];
    now rewrite H.
Qed.

Lemma exit_only_closes_the_terminal_witness :
  (forall s : Plain.Session,
      Plain.onLine offline s (Some " .exit  ") = (s, [TermClose]))
  /\ (forall s : AgentMode.Session,
        AgentMode.onLine offline s (Some " .exit  ") = (s, [TermClose])).
Proof.
  apply (exit_only_closes_the_terminal offline (Some " .exit  ")).
  right. exists " .exit  ". split; reflexivity.
Defined.

Lemma plain_first_turn (W : Platform) (s : Plain.Session) (line prompt : string) :
  dispatch (Some line) = Chat line ->
  Plain.conversation s = [] ->
  initialPromptTemplate (Plain.compiledBot s) line = Some prompt ->
  Plain.onLine W s (Some line)
  = Plain.complete W (Plain.withConversation s [HumanMessage prompt])
      [SystemMessage (systemMessage (Plain.compiledBot s)); HumanMessage prompt].
Proof.
  intros D C T. unfold Plain.onLine, Plain.chat. now rewrite D, C, T.
Qed.

Lemma agent_first_turn (W : Platform) (s : AgentMode.Session) (line prompt : string) :
  dispatch (Some line) = Chat line ->
  AgentMode.conversation s = [] ->
  initialPromptTemplate (AgentMode.compiledBot s) line = Some prompt ->
  AgentMode.onLine W s (Some line)
  = AgentMode.complete W (AgentMode.withConversation s [HumanMessage prompt])
      [HumanMessage prompt].
Proof.
  intros D C T. unfold AgentMode.onLine, AgentMode.chat. now rewrite D, C, T.
Qed.

Lemma plain_complete_head (W : Platform) (s : Plain.Session) (sent : list BaseMessage) :
  exists rest, snd (Plain.complete W s sent) = LlmInvoke sent :: rest.
Proof.
  unfold Plain.complete. destruct (llm_invoke W sent); now eexists.
Qed.

Lemma agent_complete_head (W : Platform) (s : AgentMode.Session) (sent : list BaseMessage) :
  exists rest,
    snd (AgentMode.complete W s sent) = AgentInvoke (AgentMode.agent s) sent :: rest.
Proof.
  unfold AgentMode.complete.
  destruct (agent_invoke W (AgentMode.agent s) sent); now eexists.
Qed.

(** X11. A [.load] that succeeds replaces the whole session: the bot
    definition is the one loaded, the compiled bot and (agent variant)
    the agent are made anew from it, the conversation is empty, and the
    file name is reported. The next chat line is then a first turn of
    the new bot: it is rendered with the new template and goes out with
    the new system message, as the first message of the list (plain
    variant) or as the prompt of the agent (agent variant). *)
Theorem successful_load_replaces_the_session :
  forall (W : Platform) (line : string) (file : option string) (b : BotDefinition),
    dispatch (Some line) = Load file ->
    loadBotDefinition W file = Ok b ->
    (forall s : Plain.Session,
        Plain.onLine W s (Some line) = (plainSession W b, [loaded file; TermPrompt]))
    /\ (forall s : AgentMode.Session,
          AgentMode.onLine W s (Some line)
          = (agentSession W b, [loaded file; TermPrompt]))
    /\ (forall (s : Plain.Session) (next prompt : string),
          dispatch (Some next) = Chat next ->
          compile W (bot_initialPromptTemplate b) next = Some prompt ->
          exists rest,
            snd (Plain.onLine W (fst (Plain.onLine W s (Some line))) (Some next))
            = LlmInvoke [SystemMessage (bot_systemMessage b); HumanMessage prompt]
              :: rest)
    /\ (forall (s : AgentMode.Session) (next prompt : string),
          dispatch (Some next) = Chat next ->
          compile W (bot_initialPromptTemplate b) next = Some prompt ->
          exists rest,
            snd (AgentMode.onLine W (fst (AgentMode.onLine W s (Some line)))
                   (Some next))
            = AgentInvoke {| systemPrompt := bot_systemMessage b |}
                [HumanMessage prompt]
              :: rest).
Proof.
  intros W line file b D L.
  assert (P : forall s : Plain.Session,
             Plain.onLine W s (Some line)
             = (plainSession W b, [loaded file; TermPrompt]))
    by (intros s; unfold Plain.onLine; now rewrite D, L).
  assert (A : forall s : AgentMode.Session,
             AgentMode.onLine W s (Some line)
             = (agentSession W b, [loaded file; TermPrompt]))
    by (intros s; unfold AgentMode.onLine; now rewrite D, L).
  split; [exact P|]. split; [exact A|]. split.
  - intros s next prompt Dn T. rewrite P. cbn [fst].
    rewrite (plain_first_turn W (plainSession W b) next prompt Dn eq_refl T).
    apply plain_complete_head.
  - intros s next prompt Dn T. rewrite A. cbn [fst].
    rewrite (agent_first_turn W (agentSession W b) next prompt Dn eq_refl T).
    apply agent_complete_head.
Qed.

Lemma successful_load_replaces_the_session_witness :
  (forall s : Plain.Session,
      Plain.onLine onDisk s (Some ".load bot.json")
      = (plainSession onDisk qBot, [loaded (Some "bot.json"); TermPrompt]))
  /\ (forall s : AgentMode.Session,
        AgentMode.onLine onDisk s (Some ".load bot.json")
        = (agentSession onDisk qBot, [loaded (Some "bot.json"); TermPrompt])).
Proof.
  destruct (successful_load_replaces_the_session onDisk ".load bot.json"
              (Some "bot.json") qBot eq_refl eq_refl) as (P & A & _).
  split; [exact P | exact A].
Defined.

Lemma plain_complete_keeps_bot (W : Platform) (s : Plain.Session) (sent : list BaseMessage) :
  Plain.bot (fst (Plain.complete W s sent)) = Plain.bot s
  /\ Plain.compiledBot (fst (Plain.complete W s sent)) = Plain.compiledBot s.
Proof.
  unfold Plain.complete. destruct (llm_invoke W sent); now split.
Qed.

Lemma plain_chat_keeps_bot (W : Platform) (s : Plain.Session) (line : string) :
  Plain.bot (fst (Plain.chat W s line)) = Plain.bot s
  /\ Plain.compiledBot (fst (Plain.chat W s line)) = Plain.compiledBot s.
Proof.
  unfold Plain.chat. destruct (Plain.conversation s) as [|m c].
  - destruct (initialPromptTemplate (Plain.compiledBot s) line); [|now split].
    match goal with
    | |- context [Plain.complete W ?x ?y] =>
        destruct (plain_complete_keeps_bot W x y) as (A & B)
    end.
    split; [exact A | exact B].
  - destruct (trimmer (includePartial W) _); [|now split].
    match goal with
    | |- context [Plain.complete W ?x ?y] =>
        destruct (plain_complete_keeps_bot W x y) as (A & B)
    end.
    split; [exact A | exact B].
Qed.

Lemma agent_complete_keeps_bot (W : Platform) (s : AgentMode.Session)
  (sent : list BaseMessage) :
  AgentMode.bot (fst (AgentMode.complete W s sent)) = AgentMode.bot s
  /\ AgentMode.compiledBot (fst (AgentMode.complete W s sent))
     = AgentMode.compiledBot s
  /\ AgentMode.agent (fst (AgentMode.complete W s sent)) = AgentMode.agent s.
Proof.
  unfold AgentMode.complete.
  destruct (agent_invoke W (AgentMode.agent s) sent); now repeat split.
Qed.

Lemma agent_chat_keeps_bot (W : Platform) (s : AgentMode.Session) (line : string) :
  AgentMode.bot (fst (AgentMode.chat W s line)) = AgentMode.bot s
  /\ AgentMode.compiledBot (fst (AgentMode.chat W s line))
     = AgentMode.compiledBot s
  /\ AgentMode.agent (fst (AgentMode.chat W s line)) = AgentMode.agent s.
Proof.
  unfold AgentMode.chat. destruct (AgentMode.conversation s) as [|m c].
  - destruct (initialPromptTemplate (AgentMode.compiledBot s) line);
      [|now repeat split].
    match goal with
    | |- context [AgentMode.complete W ?x ?y] =>
        destruct (agent_complete_keeps_bot W x y) as (A & B & C)
    end.
    split; [exact A | split; [exact B | exact C]].
  - destruct (trimmer (includePartial W) _); [|now repeat split].
    match goal with
    | |- context [AgentMode.complete W ?x ?y] =>
        destruct (agent_complete_keeps_bot W x y) as (A & B & C)
    end.
    split; [exact A | split; [exact B | exact C]].
Qed.

Lemma plain_onLine_bot (W : Platform) (s : Plain.Session) (input : option string) :
  (Plain.bot (fst (Plain.onLine W s input)) = Plain.bot s
   /\ Plain.compiledBot (fst (Plain.onLine W s input)) = Plain.compiledBot s)
  \/ (exists file b,
        dispatch input = Load file /\ loadBotDefinition W file = Ok b
        /\ fst (Plain.onLine W s input) = plainSession W b).
Proof.
  unfold Plain.onLine. destruct (dispatch input) as [| |file|line].
  - now left.
  - now left.
  - destruct (loadBotDefinition W file) as [b|m] eqn:L; [|now left].
    right. now exists file, b.
  - left. apply plain_chat_keeps_bot.
Qed.

Lemma agent_onLine_bot (W : Platform) (s : AgentMode.Session) (input : option string) :
  (AgentMode.bot (fst (AgentMode.onLine W s input)) = AgentMode.bot s
   /\ AgentMode.compiledBot (fst (AgentMode.onLine W s input))
      = AgentMode.compiledBot s
   /\ AgentMode.agent (fst (AgentMode.onLine W s input)) = AgentMode.agent s)
  \/ (exists file b,
        dispatch input = Load file /\ loadBotDefinition W file = Ok b
        /\ fst (AgentMode.onLine W s input) = agentSession W b).
Proof.
  unfold AgentMode.onLine. destruct (dispatch input) as [| |file|line].
  - now left.
  - now left.
  - destruct (loadBotDefinition W file) as [b|m] eqn:L; [|now left].
    right. now exists file, b.
  - left. apply agent_chat_keeps_bot.
Qed.

(** X12. Whatever the line, and whether the turn succeeds or ends the
    process, the handler leaves the bot definition, the compiled bot and
    the agent as they were, unless the line is a [.load] that succeeds,
    in which case the session is the fresh session of the loaded
    definition. No chat turn, reset, exit or failure ever changes the
    bot. *)
Theorem only_a_successful_load_changes_the_bot :
  forall (W : Platform) (input : option string),
    (forall s : Plain.Session,
        (Plain.bot (fst (Plain.onLine W s input)) = Plain.bot s
         /\ Plain.compiledBot (fst (Plain.onLine W s input)) = Plain.compiledBot s)
        \/ (exists file b,
              dispatch input = Load file /\ loadBotDefinition W file = Ok b
              /\ fst (Plain.onLine W s input) = plainSession W b))
    /\ (forall s : AgentMode.Session,
          (AgentMode.bot (fst (AgentMode.onLine W s input)) = AgentMode.bot s
           /\ AgentMode.compiledBot (fst (AgentMode.onLine W s input))
              = AgentMode.compiledBot s
           /\ AgentMode.agent (fst (AgentMode.onLine W s input)) = AgentMode.agent s)
          \/ (exists file b,
                dispatch input = Load file /\ loadBotDefinition W file = Ok b
                /\ fst (AgentMode.onLine W s input) = agentSession W b)).
Proof.
  intros W input. split; intros s;
    [apply plain_onLine_bot | apply agent_onLine_bot].
Qed.

(** X13. The handler keeps the compiled bot, and in the agent variant
    the agent, in step with the bot definition: if they were made from
    the bot definition before a line, they are after it; and the plain
    variant starts in that state, with or without a file. *)
Theorem handler_keeps_compiled_bot_in_step :
  forall (W : Platform) (input : option string),
    (forall s : Plain.Session,
        plainSynced W s -> plainSynced W (fst (Plain.onLine W s input)))
    /\ (forall s : AgentMode.Session,
          agentSynced W s -> agentSynced W (fst (AgentMode.onLine W s input)))
    /\ (forall file s, fst (plainStartup W file) = Some s -> plainSynced W s).
Proof.
  intros W input. split; [|split].
  - intros s H. unfold plainSynced in *.
    destruct (plain_onLine_bot W s input) as [(B & C)|(file & b & _ & _ & E)].
    + now rewrite B, C.
    + now rewrite E.
  - intros s (H1 & H2). unfold agentSynced in *.
    destruct (agent_onLine_bot W s input) as [(B & C & A)|(file & b & _ & _ & E)].
    + now rewrite B, C, A.
    + now rewrite E.
  - intros file s. unfold plainStartup.
    destruct (given file); [destruct (loadBotDefinition W file)|];
      cbn [fst]; intros [= <-]; reflexivity.
Qed.

Lemma handler_keeps_compiled_bot_in_step_witness :
  plainSynced offline (fst (Plain.onLine offline (plainSession offline qBot)
                              (Some "hello"))).
Proof.
  apply (proj1 (handler_keeps_compiled_bot_in_step offline (Some "hello"))).
  reflexivity.
Defined.

(** X14. Started with a file, the agent variant reads the bot definition
    from it but keeps the agent it created before, from the built-in
    bot: the first chat line is rendered with the template of the file
    and handed to an agent whose system prompt is the built-in one. The
    agent is in step with the bot only if the file has the built-in
    system message. The plain variant starts with the session of the
    file. A file that does not load ends either variant with the error
    and exit code 1, before any prompt. *)
Theorem agent_startup_keeps_built_in_prompt :
  forall (W : Platform) (file : option string),
    given file = true ->
    match loadBotDefinition W file with
    | Ok b =>
        exists s,
          agentStartup W file = (Some s, [TermPrompt])
          /\ AgentMode.bot s = b
          /\ AgentMode.compiledBot s = compileBot W b
          /\ AgentMode.conversation s = []
          /\ AgentMode.agent s = createAgent defaultBot
          /\ (agentSynced W s <-> bot_systemMessage b = bot_systemMessage defaultBot)
          /\ (forall line prompt,
                dispatch (Some line) = Chat line ->
                compile W (bot_initialPromptTemplate b) line = Some prompt ->
                exists rest,
                  snd (AgentMode.onLine W s (Some line))
                  = AgentInvoke (createAgent defaultBot) [HumanMessage prompt]
                    :: rest)
          /\ plainStartup W file = (Some (plainSession W b), [TermPrompt])
    | Throw message =>
        agentStartup W file = (None, [loadError message; ProcessExit 1])
        /\ plainStartup W file = (None, [loadError message; ProcessExit 1])
    end.
Proof.
  intros W file G. unfold agentStartup, plainStartup. rewrite G.
  destruct (loadBotDefinition W file) as [b|m]; [|now split].
  eexists. split; [reflexivity|].
  do 4 (split; [reflexivity|]). split; [|split; [|reflexivity]].
  - unfold agentSynced, createAgent. cbn. split.
    + intros (_ & A). now injection A.
    + intros E. split; [reflexivity | now rewrite E].
  - intros line prompt D T.
    match goal with
    | |- context [AgentMode.onLine W ?x _] =>
        rewrite (agent_first_turn W x line prompt D eq_refl T)
    end.
    apply agent_complete_head.
Qed.

Lemma agent_startup_keeps_built_in_prompt_witness :
  exists s,
    agentStartup onDisk (Some "bot.json") = (Some s, [TermPrompt])
    /\ AgentMode.bot s = qBot
    /\ AgentMode.agent s = createAgent defaultBot.
Proof.
  destruct (agent_startup_keeps_built_in_prompt onDisk (Some "bot.json") eq_refl)
    as (s & E & B & _ & _ & A & _).
  exists s. repeat split; assumption.
Defined.

Ltac ends_after n :=
  match n with
  | 0 => eexists [], _
  | 1 => eexists [_], _
  | 2 => eexists [_; _], _
  | 3 => eexists [_; _; _], _
  end;
  split; [reflexivity | split; reflexivity].

Ltac ends_well :=
  cbn [snd]; first [ends_after 0 | ends_after 1 | ends_after 2 | ends_after 3].

(** X15. Every line is answered by exactly one closing event, and it
    comes last: the next prompt, the closing of the terminal, or the end
    of the process; in both variants and on every path, failures
    included. *)
Theorem every_line_ends_with_one_closing_event :
  forall (W : Platform) (input : option string),
    (forall s : Plain.Session,
        exists before last,
          snd (Plain.onLine W s input) = before ++ [last]
          /\ closing last = true
          /\ forallb (fun e => negb (closing e)) before = true)
    /\ (forall s : AgentMode.Session,
          exists before last,
            snd (AgentMode.onLine W s input) = before ++ [last]
            /\ closing last = true
            /\ forallb (fun e => negb (closing e)) before = true).
Proof.
  intros W input. split; intros s.
  - unfold Plain.onLine. destruct (dispatch input) as [| |file|line].
    + ends_well.
    + ends_well.
    + destruct (loadBotDefinition W file); ends_well.
    + unfold Plain.chat. destruct (Plain.conversation s).
      * destruct (initialPromptTemplate (Plain.compiledBot s) line);
          [|ends_well].
        unfold Plain.complete. destruct (llm_invoke W _); ends_well.
      * destruct (trimmer (includePartial W) _); [|ends_well].
        unfold Plain.complete. destruct (llm_invoke W _); ends_well.
  - unfold AgentMode.onLine. destruct (dispatch input) as [| |file|line].
    + ends_well.
    + ends_well.
    + destruct (loadBotDefinition W file); ends_well.
    + unfold AgentMode.chat. destruct (AgentMode.conversation s).
      * destruct (initialPromptTemplate (AgentMode.compiledBot s) line);
          [|ends_well].
        unfold AgentMode.complete. destruct (agent_invoke W _ _); ends_well.
      * destruct (trimmer (includePartial W) _); [|ends_well].
        unfold AgentMode.complete. destruct (agent_invoke W _ _); ends_well.
Qed.

(** ** Later turns *)

Lemma reversed_snoc (c : list BaseMessage) (line : string) :
  LangChain.dropUntil human (rev (c ++ [HumanMessage line]))
  = HumanMessage line :: rev c.
Proof. rewrite rev_app_distr. reflexivity. Qed.

Lemma upToLastHuman_snoc (c : list BaseMessage) (line : string) :
  upToLastHuman (c ++ [HumanMessage line]) = c ++ [HumanMessage line].
Proof.
  unfold upToLastHuman. rewrite reversed_snoc. cbn [rev].
  now rewrite rev_involutive.
Qed.

(** X16. On a later turn, when the conversation with the new line at its
    end fits the 1000 tokens (counted newest first), nothing is dropped:
    the line goes in as typed, without the template; the plain variant
    sends the system message followed by the whole conversation and
    appends the reply; the agent variant sends the whole conversation and
    appends what the agent adds to it. *)
Theorem turn_that_fits_drops_nothing :
  forall (W : Platform) (line : string),
    dispatch (Some line) = Chat line ->
    (forall (s : Plain.Session) (res : BaseMessage),
        Plain.conversation s <> [] ->
        fits 1000 (rev (Plain.conversation s ++ [HumanMessage line])) ->
        llm_invoke W (SystemMessage (systemMessage (Plain.compiledBot s))
                        :: Plain.conversation s ++ [HumanMessage line])
        = Some res ->
        exists rest,
          Plain.onLine W s (Some line)
          = (Plain.withConversation s
               (Plain.conversation s ++ [HumanMessage line] ++ [res]),
             LlmInvoke (SystemMessage (systemMessage (Plain.compiledBot s))
                          :: Plain.conversation s ++ [HumanMessage line])
             :: rest))
    /\ (forall (s : AgentMode.Session) (new : list BaseMessage),
          AgentMode.conversation s <> [] ->
          fits 1000 (rev (AgentMode.conversation s ++ [HumanMessage line])) ->
          agent_invoke W (AgentMode.agent s)
            (AgentMode.conversation s ++ [HumanMessage line])
          = Some ((AgentMode.conversation s ++ [HumanMessage line]) ++ new) ->
          exists rest,
            AgentMode.onLine W s (Some line)
            = (AgentMode.withConversation s
                 (AgentMode.conversation s ++ [HumanMessage line] ++ new),
               AgentInvoke (AgentMode.agent s)
                 (AgentMode.conversation s ++ [HumanMessage line])
               :: rest)).
Proof.
  intros W line D. split.
  - intros s res C F L. unfold Plain.onLine, Plain.chat. rewrite D.
    destruct (Plain.conversation s) as [|m c] eqn:E; [congruence|].
    cbn [Plain.conversation Plain.withConversation]. unfold trimmer.
    rewrite (trimMessages_all (includePartial W) 1000 ((m :: c) ++ [HumanMessage line])
               (upToLastHuman_snoc _ _) (or_intror F)).
    unfold Plain.complete.
    cbn [Plain.conversation Plain.withConversation Plain.compiledBot app] in *.
    rewrite L. eexists. cbn [Plain.bot Plain.compiledBot].
    rewrite <- app_assoc. reflexivity.
  - intros s new C F L. unfold AgentMode.onLine, AgentMode.chat. rewrite D.
    destruct (AgentMode.conversation s) as [|m c] eqn:E; [congruence|].
    cbn [AgentMode.conversation AgentMode.withConversation]. unfold trimmer.
    rewrite (trimMessages_all (includePartial W) 1000 ((m :: c) ++ [HumanMessage line])
               (upToLastHuman_snoc _ _) (or_intror F)).
    unfold AgentMode.complete.
    cbn [AgentMode.conversation AgentMode.withConversation AgentMode.agent] in *.
    rewrite L. eexists.
    cbn [AgentMode.bot AgentMode.compiledBot AgentMode.agent].
    rewrite skipn_app, skipn_all, Nat.sub_diag. cbn [skipn app].
    rewrite <- app_assoc. reflexivity.
Qed.

Lemma turn_that_fits_drops_nothing_witness :
  exists rest,
    Plain.onLine offline
      (Plain.withConversation (plainSession offline qBot)
         [HumanMessage "Q: hello"; AIMessage "ok" (Num 12)])
      (Some "and then?")
    = (Plain.withConversation (plainSession offline qBot)
         ([HumanMessage "Q: hello"; AIMessage "ok" (Num 12)]
          ++ [HumanMessage "and then?"] ++ [AIMessage "ok" (Num 12)]),
       LlmInvoke (SystemMessage "S"
                    :: [HumanMessage "Q: hello"; AIMessage "ok" (Num 12)]
                       ++ [HumanMessage "and then?"])
       :: rest).
Proof.
  apply (proj1 (turn_that_fits_drops_nothing offline "and then?" eq_refl)
           (Plain.withConversation (plainSession offline qBot)
              [HumanMessage "Q: hello"; AIMessage "ok" (Num 12)])
           (AIMessage "ok" (Num 12))).
  - discriminate.
  - exists 14%Z. split; [reflexivity | lia].
  - reflexivity.
Defined.

(** X17. A new line whose own estimate is within the budget is never
    trimmed away and never cut: whatever older messages are dropped and
    whatever the partial-inclusion step adds, the answer of the trimmer
    ends with the human message of the line as typed. *)
Theorem new_line_survives_trimming :
  forall (P : PartialStep) (B : Z) (c r : list BaseMessage) (line : string),
    (Z.of_nat (length (Js.splitWs line)) <= B)%Z ->
    trimMessages P B (c ++ [HumanMessage line]) = Some r ->
    exists init, r = init ++ [HumanMessage line].
Proof.
  intros P B c r line L H.
  destruct (LangChain.findFit B tokenCounter
              (LangChain.dropUntil human (rev (c ++ [HumanMessage line])))
              (length (LangChain.dropUntil human (rev (c ++ [HumanMessage line])))))
    as [idx|] eqn:F.
  2:{ unfold trimMessages, LangChain.lastMaxTokens, LangChain.firstMaxTokens in H.
      now rewrite F in H. }
  destruct (trimMessages_at P B _ idx F) as (_ & E).
  rewrite H in E. rewrite reversed_snoc in F, E.
  destruct idx as [|i].
  - (* the search cannot end below the new line *)
    destruct (findFit_exceeds B _ _ _ F 1) as (n & C & G); [cbn [length]; lia|].
    cbn in C. injection C as <-. lia.
  - cbn [firstn skipn rev] in E. unfold assemble in E.
    destruct (rev (skipn i (rev c))) as [|o older].
    + injection E as ->. now eexists.
    + destruct (P B _ _) as [extra|]; [|discriminate].
      cbn [bind] in E. injection E as ->.
      eexists. now rewrite app_assoc.
Qed.

Lemma new_line_survives_trimming_witness :
  exists init, [HumanMessage twentyWords] = init ++ [HumanMessage twentyWords].
Proof.
  apply (new_line_survives_trimming noPartial 100
           [HumanMessage "hi"; AIMessage "x" (Num 990)]
           [HumanMessage twentyWords] twentyWords);
    [vm_compute; discriminate | reflexivity].
Defined.

(** X18. The agent variant appends what the agent returns beyond the
    number of messages it was sent: when the agent returns the messages
    sent followed by new ones, exactly the new ones are appended, and
    when it returns no more messages than it was sent, the conversation
    stays as it is and the next prompt follows. *)
Theorem agent_answer_is_cut_at_the_messages_sent :
  forall (W : Platform) (s : AgentMode.Session) (sent res : list BaseMessage),
    agent_invoke W (AgentMode.agent s) sent = Some res ->
    (forall new,
        res = sent ++ new ->
        AgentMode.conversation (fst (AgentMode.complete W s sent))
        = AgentMode.conversation s ++ new)
    /\ (length res <= length sent ->
        AgentMode.complete W s sent
        = (s, [AgentInvoke (AgentMode.agent s) sent; StdoutWrite blankLine;
               TermPrompt])).
Proof.
  intros W s sent res H. unfold AgentMode.complete. rewrite H. split.
  - intros new ->. cbn [fst AgentMode.conversation AgentMode.withConversation].
    now rewrite skipn_app, skipn_all, Nat.sub_diag.
  - intros L. rewrite skipn_all2 by exact L. rewrite app_nil_r.
    now destruct s.
Qed.

Lemma agent_answer_is_cut_at_the_messages_sent_witness :
  AgentMode.conversation
    (fst (AgentMode.complete offline
            (AgentMode.withConversation (agentSession offline qBot)
               [HumanMessage "Q: hello"])
            [HumanMessage "Q: hello"]))
  = [HumanMessage "Q: hello"] ++ [AIMessage "ok" (Num 12)].
Proof.
  apply (proj1 (agent_answer_is_cut_at_the_messages_sent offline
                  (AgentMode.withConversation (agentSession offline qBot)
                     [HumanMessage "Q: hello"])
                  [HumanMessage "Q: hello"]
                  ([HumanMessage "Q: hello"] ++ [AIMessage "ok" (Num 12)])
                  eq_refl)).
  reflexivity.
Defined.

(** ** First turn of the built-in bot *)

Lemma append_empty (s : string) : (s ++ EmptyString)%string = s.
Proof. induction s as [|c s IH]; [reflexivity|]. cbn [append]. now rewrite IH. Qed.

Lemma escapeExpression_plainText (s : string) :
  plainText s = true -> Handlebars.escapeExpression s = s.
Proof.
  induction s as [|c s IH]; [reflexivity|].
  cbn [plainText Handlebars.escapeExpression]. intros H.
  apply andb_prop in H. destruct H as (C & H).
  apply String.eqb_eq in C. rewrite C, (IH H). reflexivity.
Qed.

Lemma string_length_append (a b : string) :
  String.length (a ++ b) = String.length a + String.length b.
Proof. induction a as [|c a IH]; [reflexivity|]. cbn. now rewrite IH. Qed.

Lemma escapeChar_length (c : ascii) :
  1 <= String.length (Handlebars.escapeChar c)
  /\ (String.eqb (Handlebars.escapeChar c) (String c EmptyString) = false ->
      2 <= String.length (Handlebars.escapeChar c)).
Proof.
  unfold Handlebars.escapeChar.
  repeat match goal with
         | |- context [if ?b then _ else _] =>
             destruct b; [cbn; split; [lia | intros _; lia]|]
         end.
  split; [cbn; lia|]. rewrite String.eqb_refl. discriminate.
Qed.

Lemma escapeExpression_grows (s : string) :
  plainText s = false ->
  String.length s < String.length (Handlebars.escapeExpression s).
Proof.
  assert (G : forall t, String.length t <= String.length (Handlebars.escapeExpression t)).
  { induction t as [|c t IH]; [reflexivity|].
    cbn [Handlebars.escapeExpression]. rewrite string_length_append.
    destruct (escapeChar_length c) as (L & _). cbn [String.length]. lia. }
  induction s as [|c s IH]; [discriminate|].
  cbn [plainText Handlebars.escapeExpression]. rewrite string_length_append.
  destruct (escapeChar_length c) as (L1 & L2). cbn [String.length].
  destruct (String.eqb (Handlebars.escapeChar c) (String c EmptyString)).
  - cbn [andb]. intros H. apply IH in H. lia.
  - intros _. specialize (L2 eq_refl). pose proof (G s). lia.
Qed.

Lemma default_template (W : Platform) (line : string) :
  compile W (bot_initialPromptTemplate defaultBot) line
  = Some (Handlebars.escapeExpression line).
Proof.
  assert (E : Handlebars.parse (bot_initialPromptTemplate defaultBot)
              = Some [Handlebars.Content EmptyString; Handlebars.Mustache true;
                      Handlebars.Content EmptyString])
    by reflexivity.
  unfold compile. rewrite E. cbn [Handlebars.render append].
  now rewrite append_empty.
Qed.

(** X19. With the built-in bot the first line of a conversation is not
    stored as typed: the template [{{input}}] stores it HTML-escaped, so
    that a line with none of the characters [&], [<], [>], the two quotes,
    the backquote and [=] is stored unchanged and any other line is not;
    in both variants. *)
Theorem built_in_bot_escapes_the_first_line :
  forall (W : Platform) (line : string),
    dispatch (Some line) = Chat line ->
    hd_error (Plain.conversation
                (fst (Plain.onLine W (plainSession W defaultBot) (Some line))))
    = Some (HumanMessage (Handlebars.escapeExpression line))
    /\ hd_error (AgentMode.conversation
                   (fst (AgentMode.onLine W (agentSession W defaultBot) (Some line))))
       = Some (HumanMessage (Handlebars.escapeExpression line))
    /\ (plainText line = true -> Handlebars.escapeExpression line = line)
    /\ (plainText line = false -> Handlebars.escapeExpression line <> line).
Proof.
  intros W line D. split; [|split; [|split]].
  - rewrite (plain_first_turn W (plainSession W defaultBot) line
               (Handlebars.escapeExpression line) D eq_refl (default_template W line)).
    unfold Plain.complete. now destruct (llm_invoke W _).
  - rewrite (agent_first_turn W (agentSession W defaultBot) line
               (Handlebars.escapeExpression line) D eq_refl (default_template W line)).
    unfold AgentMode.complete. now destruct (agent_invoke W _ _).
  - apply escapeExpression_plainText.
  - intros H E. apply (escapeExpression_grows line) in H.
    rewrite E in H. lia.
Qed.

Lemma built_in_bot_escapes_the_first_line_witness :
  hd_error (Plain.conversation
              (fst (Plain.onLine offline (plainSession offline defaultBot)
                      (Some "is 1 < 2?"))))
  = Some (HumanMessage (Handlebars.escapeExpression "is 1 < 2?"))
  /\ Handlebars.escapeExpression "is 1 < 2?" = "is 1 &lt; 2?".
Proof.
  split; [|reflexivity].
  apply (proj1 (built_in_bot_escapes_the_first_line offline "is 1 < 2?" eq_refl)).
Defined.

(** ** A message that cannot be counted *)

Lemma reduce_uncountable (msgs : list BaseMessage) (m : BaseMessage) :
  In m msgs -> estimated m = true -> contentToString (content m) = None ->
  forall t, reduce t msgs = None.
Proof.
  intros I E C. induction msgs as [|x msgs IH]; intros t; [destruct I|].
  cbn [reduce]. destruct I as [->|I].
  - unfold countMessage, estimated, estimateTokens in *. rewrite C.
    now destruct (response_metadata m).
  - destruct (countMessage t x); [apply (IH I) | reflexivity].
Qed.

Lemma trimmer_uncountable (P : PartialStep) (c : list BaseMessage)
  (m : BaseMessage) (line : string) :
  In m c -> estimated m = true -> contentToString (content m) = None ->
  trimmer P (c ++ [HumanMessage line]) = None.
Proof.
  intros I E C.
  unfold trimmer, trimMessages, LangChain.lastMaxTokens, LangChain.firstMaxTokens.
  rewrite reversed_snoc. cbn [length].
  rewrite findFit_S, firstn_all2 by (cbn [length]; lia).
  unfold tokenCounter at 1.
  rewrite (reduce_uncountable (HumanMessage line :: rev c) m); [reflexivity | | exact E | exact C].
  right. now apply in_rev in I.
Qed.

(** X20. One message that cannot be counted (no numeric usage and a
    content that does not normalise) in the conversation makes every
    later chat line fatal: the line is appended, the trimmer throws on
    its first count, nothing is sent, and the process ends with code 1;
    in both variants. *)
Theorem uncountable_message_ends_the_next_turn :
  forall (W : Platform) (line : string) (m : BaseMessage),
    dispatch (Some line) = Chat line ->
    estimated m = true ->
    contentToString (content m) = None ->
    (forall s : Plain.Session,
        In m (Plain.conversation s) ->
        Plain.onLine W s (Some line)
        = (Plain.withConversation s (Plain.conversation s ++ [HumanMessage line]),
           [ConsoleError "Unexpected error processing user input"; ProcessExit 1]))
    /\ (forall s : AgentMode.Session,
          In m (AgentMode.conversation s) ->
          AgentMode.onLine W s (Some line)
          = (AgentMode.withConversation s
               (AgentMode.conversation s ++ [HumanMessage line]),
             [ConsoleError "Unexpected error processing user input"; ProcessExit 1])).
Proof.
  intros W line m D E C. split; intros s I.
  - unfold Plain.onLine, Plain.chat. rewrite D.
    destruct (Plain.conversation s) as [|x c] eqn:S; [destruct I|].
    cbn [Plain.conversation Plain.withConversation].
    now rewrite (trimmer_uncountable (includePartial W) (x :: c) m line I E C).
  - unfold AgentMode.onLine, AgentMode.chat. rewrite D.
    destruct (AgentMode.conversation s) as [|x c] eqn:S; [destruct I|].
    cbn [AgentMode.conversation AgentMode.withConversation].
    now rewrite (trimmer_uncountable (includePartial W) (x :: c) m line I E C).
Qed.

Lemma uncountable_message_ends_the_next_turn_witness :
  Plain.onLine offline
    (Plain.withConversation (plainSession offline qBot)
       [HumanMessage "Q: hello";
        {| getType := ai; content := Blocks []; response_metadata := Missing |}])
    (Some "and then?")
  = (Plain.withConversation (plainSession offline qBot)
       ([HumanMessage "Q: hello";
         {| getType := ai; content := Blocks []; response_metadata := Missing |}]
        ++ [HumanMessage "and then?"]),
     [ConsoleError "Unexpected error processing user input"; ProcessExit 1]).
Proof.
  apply (proj1 (uncountable_message_ends_the_next_turn offline "and then?"
                  {| getType := ai; content := Blocks [];
                     response_metadata := Missing |}
                  eq_refl eq_refl eq_refl)
           (Plain.withConversation (plainSession offline qBot)
              [HumanMessage "Q: hello";
               {| getType := ai; content := Blocks [];
                  response_metadata := Missing |}])).
  right. left. reflexivity.
Defined.

(** ** Order of counting *)

Lemma reduce_shift (msgs : list BaseMessage) :
  Forall (fun m => estimated m = true) msgs ->
  forall t, reduce t msgs = option_map (fun a => (t + a)%Z) (reduce 0 msgs).
Proof.
  induction 1 as [|m msgs Hm _ IH]; intros t.
  - cbn. f_equal. lia.
  - cbn [reduce]. unfold countMessage. unfold estimated in Hm.
    destruct (response_metadata m); try discriminate;
      (destruct (estimateTokens (content m)) as [e|]; [|reflexivity]);
      cbn [bind]; rewrite (IH (t + Z.of_nat e)%Z), (IH (0 + Z.of_nat e)%Z);
      destruct (reduce 0 msgs); cbn; f_equal; lia.
Qed.

(** X21. When no message reports a numeric usage, the count does not
    depend on the direction of counting: counting the messages newest
    first, as the trimmer does, gives what counting them in order gives
    (the same number, or the same failure). *)
Theorem tokenCounter_without_usage_ignores_direction :
  forall msgs : list BaseMessage,
    Forall (fun m => estimated m = true) msgs ->
    tokenCounter (rev msgs) = tokenCounter msgs.
Proof.
  intros msgs H. induction H as [|m msgs Hm Hs IH]; [reflexivity|].
  cbn [rev]. rewrite tokenCounter_snoc, IH.
  unfold tokenCounter. cbn [reduce].
  assert (C : forall t,
             countMessage t m
             = option_map (fun e => (t + Z.of_nat e)%Z) (estimateTokens (content m))).
  { intros t. apply countMessage_estimate. intros n U.
    unfold estimated in Hm. now rewrite U in Hm. }
  rewrite (C 0%Z). destruct (estimateTokens (content m)) as [e|].
  - cbn [option_map bind]. rewrite (reduce_shift msgs Hs (0 + Z.of_nat e)%Z).
    destruct (reduce 0 msgs) as [a|]; cbn [bind option_map]; [|reflexivity].
    rewrite C. cbn. f_equal. lia.
  - cbn [option_map bind]. destruct (reduce 0 msgs) as [a|]; cbn [bind]; [|reflexivity].
    now rewrite C.
Qed.

Lemma tokenCounter_without_usage_ignores_direction_witness :
  tokenCounter (rev [HumanMessage "a b"; AIMessage " c " NaN])
  = tokenCounter [HumanMessage "a b"; AIMessage " c " NaN].
Proof.
  apply (tokenCounter_without_usage_ignores_direction
           [HumanMessage "a b"; AIMessage " c " NaN]).
  repeat constructor.
Defined.
